(** * ephemeris_time.py: admission filter, greedy interval scheduler and
      schedule counter

    A shallow embedding of the scheduling core of [ephemeris_time.py]:
    [calculate_transit_times], the two loops of [optimize_schedule] (the
    admission filter over the rows of the input table and the greedy scan
    over the admitted rows sorted by transit end time), the frame
    [plot_schedule_with_plotly] builds from the schedule, and
    [count_max_schedules].

    Conventions of the model.
    - A timestamp ([pd.Timestamp]) and a time offset ([pd.Timedelta],
      [datetime.timedelta]) are integers of type [Z], in nanoseconds, which
      is the resolution pandas stores them in.  The functions compute in
      [Z]; [calculate_transit_times_int64] is [calculate_transit_times]
      within the signed 64-bit range pandas has for these numbers, outside
      of which pandas raises an out-of-bounds error.
    - A float cell of the table is a [num]: [NaN] or a finite rational
      [Fin q].  Order comparisons with [NaN] are false, as in Python.
      Infinities and underflow are not modelled.
    - [midpointcalendar] is the instant [pd.to_datetime] yields for the cell.
    - What pandas computes and the repository does not define (the
      conversion of a float number of hours to a [Timedelta], and
      [DataFrame.sort_values]) is an interface, [Pandas], which the
      development is parametric in.
    - [optimize_schedule] below is the computation of the two tables, as
      they stand when the function reaches its call of
      [plot_schedule_with_plotly].  That call reads the columns of the
      schedule before it draws anything and raises [KeyError] when the
      schedule has no row: [plot_frame] is the frame it builds, and
      [optimize_schedule_result] is the outcome of the call of
      [optimize_schedule] as a whole.  What the plotting library does with
      the frame, and the two [print]s, are outside the model. *)

From Stdlib Require Import ZArith QArith Lia Sorted Permutation.
From stdpp Require Import base list gmap strings sorting.

Local Open Scope Z_scope.

(** * The program

    ** Numbers of the table *)

Inductive num : Type :=
| NaN
| Fin (q : Q).

(** [pd.isna] on a float cell. *)
Definition isna (x : num) : bool :=
  match x with NaN => true | Fin _ => false end.

Definition Qlt_bool (a b : Q) : bool := negb (Qle_bool b a).

(** [x < y] and [x > y] for a cell [x] and a configured bound [y]. *)
Definition num_lt (x : num) (y : Q) : bool :=
  match x with NaN => false | Fin q => Qlt_bool q y end.

Definition num_gt (x : num) (y : Q) : bool :=
  match x with NaN => false | Fin q => Qlt_bool y q end.

(** [pd.isna] on a value that may be Python's [None]. *)
Definition isna_opt (x : option num) : bool :=
  match x with None => true | Some v => isna v end.

Definition opt_gt (x : option num) (y : Q) : bool :=
  match x with None => false | Some v => num_gt v y end.

(** [x >= y] for two floats. *)
Definition num_ge (x y : num) : bool :=
  match x, y with
  | Fin a, Fin b => Qle_bool b a
  | _, _ => false
  end.

(** ** Data model *)

(** One row of the input table, with the column names the source reads. *)
Record Row : Type := mkRow {
  planetname : string;
  transitduration : num;
  midpointcalendar : Z;
  ra : num;
  dec : num;
  period : num;
  transitdepthcalc : num;
  midpointairmass : num;
  ingressairmass : num;
  egressairmass : num;
  magnitude_k : num
}.

(** The input table: its rows, and whether the two optional columns exist
    (['ingressairmass' in df.columns], ['egressairmass' in df.columns]);
    the cells of an absent column are never read. *)
Record DataFrame : Type := mkDataFrame {
  ingress_column_exists : bool;
  egress_column_exists : bool;
  rows : list Row
}.

(** [current_row_info]: the eleven values of an admitted row, which are also
    the columns of [valid_candidates_df]. *)
Record candidate : Type := mkCandidate {
  Name : string;
  Duration : num;
  Midpoint : Z;
  Transit_Start_Time : Z;
  Transit_End_Time : Z;
  RA : num;
  Dec : num;
  Period : num;
  Transit_Depth : num;
  Air_Mass : num;
  Magnitude_K : num
}.

Inductive cause : Type :=
| Duration_is_NaN
| Period_limit_exceeded
| Start_before_window
| End_after_window
| Magnitude_limit_exceeded
| Air_mass_limit_exceeded
| Transit_depth_limit_exceeded
| NaN_in_ingress_egress
| Ingress_egress_missing
| Ingress_egress_limit_exceeded
| Overlapping.

(** The text the source stores for each cause. *)
Definition cause_text (c : cause) : string :=
  match c with
  | Duration_is_NaN => "Duration is NaN"
  | Period_limit_exceeded => "Period limit exceeded"
  | Start_before_window => "Transit start time is before the time window"
  | End_after_window => "Transit end time is after the time window"
  | Magnitude_limit_exceeded => "Magnitude limit exceeded"
  | Air_mass_limit_exceeded => "Air mass limit exceeded"
  | Transit_depth_limit_exceeded => "Transit depth limit exceeded"
  | NaN_in_ingress_egress => "NaN in ingress/egress air mass"
  | Ingress_egress_missing => "Ingress/Egress air mass data missing"
  | Ingress_egress_limit_exceeded => "Ingress/Egress air mass limit exceeded"
  | Overlapping => "Overlapping with another target"
  end.

(** One entry of the cut list: twelve values, the transit times being
    [None] where the source writes [None]. *)
Record cut_entry : Type := mkCut {
  cut_Name : string;
  cut_Duration : num;
  cut_Midpoint : Z;
  cut_Transit_Start_Time : option Z;
  cut_Transit_End_Time : option Z;
  cut_RA : num;
  cut_Dec : num;
  cut_Period : num;
  cut_Transit_Depth : num;
  cut_Air_Mass : num;
  cut_Magnitude_K : num;
  Cause : cause
}.

(** [current_row_info + [cause]] and [row.tolist() + [cause]]. *)
Definition with_cause (c : candidate) (k : cause) : cut_entry :=
  mkCut (Name c) (Duration c) (Midpoint c)
        (Some (Transit_Start_Time c)) (Some (Transit_End_Time c))
        (RA c) (Dec c) (Period c) (Transit_Depth c) (Air_Mass c)
        (Magnitude_K c) k.

(** A row of the returned schedule: the admitted row and the two columns
    ['Schedule Start Time'] and ['Schedule End Time'] added to it. *)
Record slot : Type := mkSlot {
  slot_row : candidate;
  Schedule_Start_Time : Z;
  Schedule_End_Time : Z
}.

(** The keyword arguments of [optimize_schedule].  A limit that is falsy in
    Python ([False], [None]) is [None]. *)
Record Config : Type := mkConfig {
  magnitude_limit : option (Q * Q);
  air_mass_lim : bool;
  setup_time : bool;
  period_limit : option (Q * Q);
  transit_depth_limit : option (Q * Q);
  max_airmass : Q * Q;
  nanignore_airmass : bool;
  time_window : option Z * option Z
}.

(** The defaults of the signature. *)
Definition default_config : Config :=
  mkConfig (Some (0, 14.5)%Q) true false None (Some (0, 0.5)%Q) (2, 2)%Q
           false (None, None).

(** ** What pandas provides *)

Definition by_end (a b : candidate) : Prop :=
  Transit_End_Time a <= Transit_End_Time b.

(** [Timedelta_hours h] is [pd.Timedelta(hours=h)] in nanoseconds;
    [sort_values] is [df.sort_values(by='Transit End Time')] followed by
    [reset_index(drop=True)].  The source calls [sort_values] with its
    default [kind], for which pandas promises an ascending rearrangement of
    the rows and nothing about the order of rows with equal keys. *)
Class Pandas : Type := {
  Timedelta_hours : Q -> Z;
  Timedelta_hours_0 : forall h, (h == 0)%Q -> Timedelta_hours h = 0;
  sort_values : list candidate -> list candidate;
  sort_values_Permutation : forall l, sort_values l ≡ₚ l;
  sort_values_Sorted : forall l, Sorted by_end (sort_values l)
}.

(** [pd.Timedelta(minutes=30)] and [timedelta(minutes=30)]. *)
Definition minutes_30 : Z := 1800000000000.

Section Core.
Context `{P : Pandas}.

(** ** [calculate_transit_times]

    The computation in [Z]; [calculate_transit_times_int64] below is the
    same computation within the range pandas has for timestamps. *)

Definition calculate_transit_times (midpoint : Z) (duration : Q)
    (setup_time : bool) : Z * Z :=
  if setup_time then
    (midpoint - minutes_30 - Timedelta_hours (duration / 2),
     midpoint + minutes_30 + Timedelta_hours (duration / 2))
  else
    (midpoint - Timedelta_hours (duration / 2),
     midpoint + Timedelta_hours (duration / 2)).

(** ** [optimize_schedule]: the admission filter *)

(** The tests of the filter, one definition per condition of the source. *)

Definition out_of_range (limit : option (Q * Q)) (x : num) : bool :=
  match limit with
  | Some (lo, hi) => num_lt x lo || num_gt x hi
  | None => false
  end.

Definition before_window (window_start : option Z) (t : Z) : bool :=
  match window_start with Some w => t <? w | None => false end.

Definition after_window (window_end : option Z) (t : Z) : bool :=
  match window_end with Some w => w <? t | None => false end.

Definition ingress_air_mass (df : DataFrame) (row : Row) : option num :=
  if ingress_column_exists df then Some (ingressairmass row) else None.

Definition egress_air_mass (df : DataFrame) (row : Row) : option num :=
  if egress_column_exists df then Some (egressairmass row) else None.

(** The body of the first loop for one row: [inl] is the entry appended to
    [cut_list], [inr] the list appended to [valid_candidates]. *)
Definition process_row (df : DataFrame) (cfg : Config) (row : Row)
    : cut_entry + candidate :=
  let name := planetname row in
  let duration := transitduration row in
  let midpoint := midpointcalendar row in
  let ra := ra row in
  let dec := dec row in
  let period := period row in
  let transitdepth := transitdepthcalc row in
  let air_mass := midpointairmass row in
  let ingress := ingress_air_mass df row in
  let egress := egress_air_mass df row in
  let mag_k := magnitude_k row in
  let no_times k :=
    mkCut name duration midpoint None None ra dec period transitdepth
          air_mass mag_k k in
  let current_row_info : option candidate := None in
  match duration with
  | NaN => inl (no_times Duration_is_NaN)
  | Fin d =>
    if out_of_range (period_limit cfg) period then
      inl (no_times Period_limit_exceeded)
    else
      let '(transit_start_time, transit_end_time) :=
        calculate_transit_times midpoint d (setup_time cfg) in
      let cause :=
        if before_window (fst (time_window cfg)) transit_start_time
        then Some Start_before_window
        else if after_window (snd (time_window cfg)) transit_end_time
        then Some End_after_window
        else None in
      match cause with
      | Some k =>
        inl (match current_row_info with
             | Some info => with_cause info k
             | None => no_times k
             end)
      | None =>
        let current_row_info :=
          mkCandidate name duration midpoint transit_start_time
                      transit_end_time ra dec period transitdepth air_mass
                      mag_k in
        if out_of_range (magnitude_limit cfg) mag_k then
          inl (with_cause current_row_info Magnitude_limit_exceeded)
        else if air_mass_lim cfg && num_gt air_mass 2 then
          inl (with_cause current_row_info Air_mass_limit_exceeded)
        else if out_of_range (transit_depth_limit cfg) transitdepth then
          inl (with_cause current_row_info Transit_depth_limit_exceeded)
        else if negb (nanignore_airmass cfg)
                && (isna_opt ingress || isna_opt egress) then
          inl (with_cause current_row_info
                 (if ingress_column_exists df && egress_column_exists df
                  then NaN_in_ingress_egress
                  else Ingress_egress_missing))
        else if (negb (isna_opt ingress)
                 && opt_gt ingress (fst (max_airmass cfg)))
                || (negb (isna_opt egress)
                    && opt_gt egress (snd (max_airmass cfg))) then
          inl (with_cause current_row_info Ingress_egress_limit_exceeded)
        else
          inr current_row_info
      end
  end.

(** The first loop: the state is [(valid_candidates, cut_list)].
    ([all_schedules] receives the same appends as [valid_candidates] and is
    never read.) *)
Definition admission_step (df : DataFrame) (cfg : Config)
    (st : list candidate * list cut_entry) (row : Row)
    : list candidate * list cut_entry :=
  match process_row df cfg row with
  | inl e => (st.1, st.2 ++ [e])
  | inr c => (st.1 ++ [c], st.2)
  end.

Definition admission (df : DataFrame) (cfg : Config)
    : list candidate * list cut_entry :=
  fold_left (admission_step df cfg) (rows df) ([], []).

(** ** [optimize_schedule]: the greedy scan *)

(** [schedule_start_time] and [schedule_end_time] of the second loop. *)
Definition schedule_start_time (cfg : Config) (row : candidate) : Z :=
  if setup_time cfg then Transit_Start_Time row - minutes_30
  else Transit_Start_Time row.

Definition schedule_end_time (cfg : Config) (row : candidate) : Z :=
  if setup_time cfg then Transit_End_Time row + minutes_30
  else Transit_End_Time row.

(** [last_end_time is None or schedule_start_time >= last_end_time]. *)
Definition fits (last_end_time : option Z) (start : Z) : bool :=
  match last_end_time with None => true | Some t => t <=? start end.

Record scan_state : Type := mkScan {
  optimized_schedule : list candidate;
  cut_list : list cut_entry;
  last_end_time : option Z
}.

Definition scan_step (cfg : Config) (st : scan_state) (row : candidate)
    : scan_state :=
  if fits (last_end_time st) (schedule_start_time cfg row) then
    mkScan (optimized_schedule st ++ [row]) (cut_list st)
           (Some (schedule_end_time cfg row))
  else
    mkScan (optimized_schedule st)
           (cut_list st ++ [with_cause row Overlapping])
           (last_end_time st).

(** The rows of [optimized_schedule_df] after the two schedule columns are
    added. *)
Definition add_schedule_columns (cfg : Config) (row : candidate) : slot :=
  mkSlot row
    (if setup_time cfg then Transit_Start_Time row - minutes_30
     else Transit_Start_Time row)
    (if setup_time cfg then Transit_End_Time row + minutes_30
     else Transit_End_Time row).

(** The two tables, [optimized_schedule_df] and [cut_list_df], as the two
    loops leave them.  They are what the function returns when its call of
    [plot_schedule_with_plotly] returns; [optimize_schedule_result] below
    is the outcome of the whole call. *)
Definition optimize_schedule (df : DataFrame) (cfg : Config)
    : list slot * list cut_entry :=
  let filtered := admission df cfg in
  let valid_candidates_df := sort_values filtered.1 in
  let st :=
    fold_left (scan_step cfg) valid_candidates_df
              (mkScan [] filtered.2 None) in
  (map (add_schedule_columns cfg) (optimized_schedule st), cut_list st).

End Core.

(** ** [count_max_schedules]

    The function receives Python lists that other code may hold too: a list
    of candidate schedules, each a list of events, each event a list whose
    items 3 and 4 are its start and end.  The lists live in a heap and are
    referred to by location, so that two schedules can share an event and
    an append is visible to whoever holds the list.  A computation takes a
    heap and yields a result and a heap, or yields nothing.  It yields
    nothing where Python raises: [None], a timestamp or a float that is
    iterated or indexed, an index out of range, an order comparison with
    [None] or between a timestamp and a float.  It also yields nothing
    where the model does not follow Python: a string that is iterated or
    indexed, and an order comparison that involves a string or a list. *)

Definition loc : Type := nat.

Inductive value : Type :=
| VNone
| VTime (t : Z)
| VNum (x : num)
| VText (s : string)
| VRef (l : loc).

Definition M (A : Type) : Type :=
  gmap loc (list value) -> option (A * gmap loc (list value)).

#[global] Instance M_ret : MRet M := fun A x h => Some (x, h).

#[global] Instance M_bind : MBind M := fun A B f m h =>
  match m h with
  | Some (x, h') => f x h'
  | None => None
  end.

Definition raise {A} : M A := fun _ => None.

(** The items of the list at [l]. *)
Definition load (l : loc) : M (list value) := fun h =>
  match h !! l with
  | Some items => Some (items, h)
  | None => None
  end.

(** [[]]: a new, empty list. *)
Definition new_list : M loc := fun h =>
  let l := fresh (dom h) in Some (l, <[l := []]> h).

(** [l.append(x)]. *)
Definition append (l : loc) (x : value) : M unit := fun h =>
  match h !! l with
  | Some items => Some (tt, <[l := items ++ [x]]> h)
  | None => None
  end.

(** The items of a value that is a list.  (Python iterates and indexes a
    string too; the model has no result for a string.) *)
Definition items_of (v : value) : M (list value) :=
  match v with
  | VRef l => load l
  | _ => raise
  end.

(** [v[i]]. *)
Definition item (v : value) (i : nat) : M value :=
  items ← items_of v;
  match items !! i with
  | Some x => mret x
  | None => raise
  end.

(** [a >= b] on two timestamps and on two floats (false when either float
    is NaN). *)
Definition ge (a b : value) : M bool :=
  match a, b with
  | VTime x, VTime y => mret (y <=? x)
  | VNum x, VNum y => mret (num_ge x y)
  | _, _ => raise
  end.

(** [for x in l: s = body(s, x)]. *)
Fixpoint for_each {A S} (body : S -> A -> M S) (s : S) (l : list A) : M S :=
  match l with
  | [] => mret s
  | x :: l' => s' ← body s x; for_each body s' l'
  end.

(** The body of the inner loop; its state is [last_end_time]. *)
Definition scan_event (temp_schedule : loc) (last_end_time event : value)
    : M value :=
  event_start_time ← item event 3;
  event_end_time ← item event 4;
  accept ← match last_end_time with
            | VNone => mret true
            | _ => ge event_start_time last_end_time
            end;
  if (accept : bool) then
    _ ← append temp_schedule event; mret event_end_time
  else mret last_end_time.

(** The body of the outer loop; its state is [max_schedules_count]. *)
Definition count_candidate (max_transit_count : nat)
    (max_schedules_count : nat) (candidate_schedule : value) : M nat :=
  temp_schedule ← new_list;
  events ← items_of candidate_schedule;
  _ ← for_each (scan_event temp_schedule) VNone events;
  temp ← load temp_schedule;
  mret (if decide (length temp = max_transit_count)
        then S max_schedules_count else max_schedules_count).

(** Only [len] is applied to [optimized_schedule_df], so it is passed as
    the list of its rows. *)
Definition count_max_schedules (all_schedules : value)
    (optimized_schedule_df : list slot) : M nat :=
  let max_transit_count := length optimized_schedule_df in
  schedules ← items_of all_schedules;
  for_each (count_candidate max_transit_count) 0%nat schedules.

(** *** What the function is to return

    The count in the words of the specification: a candidate schedule is a
    sequence of (start, end) pairs; its reduction goes through it in the
    given order and accepts an event when nothing is accepted yet or its
    start is at or after the end of the last accepted event; the result is
    the number of candidates whose reduction has as many events as the
    reference schedule. *)

Fixpoint reduction (last : option Z) (events : list (Z * Z))
    : list (Z * Z) :=
  match events with
  | [] => []
  | (s, e) :: rest =>
    if fits last s then (s, e) :: reduction (Some e) rest
    else reduction last rest
  end.

Definition count_matching (schedules : list (list (Z * Z))) (n : nat) : nat :=
  length (filter (fun c => length (reduction None c) = n) schedules).

(** *** Reading the arguments off the heap *)

Definition event_times (h : gmap loc (list value)) (v : value)
    : option (Z * Z) :=
  match v with
  | VRef l =>
    match h !! l with
    | Some items =>
      match items !! 3%nat, items !! 4%nat with
      | Some (VTime s), Some (VTime e) => Some (s, e)
      | _, _ => None
      end
    | None => None
    end
  | _ => None
  end.

Definition schedule_times (h : gmap loc (list value)) (v : value)
    : option (list (Z * Z)) :=
  match v with
  | VRef l =>
    match h !! l with
    | Some events => mapM (event_times h) events
    | None => None
    end
  | _ => None
  end.

Definition schedules_times (h : gmap loc (list value)) (v : value)
    : option (list (list (Z * Z))) :=
  match v with
  | VRef l =>
    match h !! l with
    | Some schedules => mapM (schedule_times h) schedules
    | None => None
    end
  | _ => None
  end.

(** The value [last_end_time] holds when the last accepted end is [last]. *)
Definition last_value (last : option Z) : value :=
  match last with None => VNone | Some t => VTime t end.

(** * Definitions for the statements

    ** The greedy scan as two recursive functions

    [accepted cfg t l] are the rows the second loop appends to
    [optimized_schedule] when it runs over [l] from [last_end_time = t];
    [overlapped cfg t l] are those it sends to the cut list;
    [final_end cfg t l] is [last_end_time] after the loop. *)

Fixpoint accepted (cfg : Config) (t : option Z) (l : list candidate)
    : list candidate :=
  match l with
  | [] => []
  | row :: l' =>
    if fits t (schedule_start_time cfg row)
    then row :: accepted cfg (Some (schedule_end_time cfg row)) l'
    else accepted cfg t l'
  end.

Fixpoint overlapped (cfg : Config) (t : option Z) (l : list candidate)
    : list candidate :=
  match l with
  | [] => []
  | row :: l' =>
    if fits t (schedule_start_time cfg row)
    then overlapped cfg (Some (schedule_end_time cfg row)) l'
    else row :: overlapped cfg t l'
  end.

Fixpoint final_end (cfg : Config) (t : option Z) (l : list candidate)
    : option Z :=
  match l with
  | [] => t
  | row :: l' =>
    if fits t (schedule_start_time cfg row)
    then final_end cfg (Some (schedule_end_time cfg row)) l'
    else final_end cfg t l'
  end.

(** ** Sets of admitted rows that the scan can accept together

    The interval the scan tests for a row runs from [schedule_start_time]
    to [schedule_end_time].  Without the setup buffer it is the transit
    interval of the row; with the buffer it is the transit interval, which
    contains the buffer, moved outwards by 30 more minutes. *)

(** Two rows do not overlap in the test of the scan: the tested interval of
    one ends no later than the tested interval of the other starts. *)
Definition disjoint (cfg : Config) (a b : candidate) : Prop :=
  schedule_end_time cfg a <= schedule_start_time cfg b
  \/ schedule_end_time cfg b <= schedule_start_time cfg a.

Fixpoint non_overlapping (cfg : Config) (s : list candidate) : Prop :=
  match s with
  | [] => True
  | a :: s' => Forall (disjoint cfg a) s' /\ non_overlapping cfg s'
  end.

(** The same two tests as boolean functions. *)
Definition disjointb (cfg : Config) (a b : candidate) : bool :=
  (schedule_end_time cfg a <=? schedule_start_time cfg b)
  || (schedule_end_time cfg b <=? schedule_start_time cfg a).

Fixpoint non_overlappingb (cfg : Config) (s : list candidate) : bool :=
  match s with
  | [] => true
  | a :: s' => forallb (disjointb cfg a) s' && non_overlappingb cfg s'
  end.

(** [n] is the largest number of rows, pairwise non-overlapping in the
    test of the scan, that can be chosen among [admitted] (a choice is a
    sub-multiset: a row of the table that occurs twice counts as two
    events). *)
Definition maximum_non_overlapping (cfg : Config) (admitted : list candidate)
    (n : nat) : Prop :=
  (exists s, s ⊆+ admitted /\ non_overlapping cfg s /\ length s = n)
  /\ (forall s, s ⊆+ admitted -> non_overlapping cfg s ->
        (length s <= n)%nat).

(** The interval the scan tests for the row has positive width. *)
Definition positive_width (cfg : Config) (c : candidate) : Prop :=
  schedule_start_time cfg c < schedule_end_time cfg c.

Definition by_schedule_end (cfg : Config) (a b : candidate) : Prop :=
  schedule_end_time cfg a <= schedule_end_time cfg b.

(** The relation between consecutive slots of a schedule. *)
Definition precedes (a b : slot) : Prop :=
  Schedule_End_Time a <= Schedule_Start_Time b.

Definition row_precedes (cfg : Config) (a b : candidate) : Prop :=
  schedule_end_time cfg a <= schedule_start_time cfg b.

(** ** Effective intervals

    The effective interval of an admitted row is the interval the
    specification derives for it from the midpoint, the duration and the
    setup flag.  It is what [calculate_transit_times] computes and the row
    carries as its transit start and transit end, the setup buffer
    included when it is on. *)

Definition effective_disjoint (a b : candidate) : Prop :=
  Transit_End_Time a <= Transit_Start_Time b
  \/ Transit_End_Time b <= Transit_Start_Time a.

Fixpoint effective_non_overlapping (s : list candidate) : Prop :=
  match s with
  | [] => True
  | a :: s' => Forall (effective_disjoint a) s' /\ effective_non_overlapping s'
  end.

(** [n] is the largest number of rows with pairwise non-overlapping
    effective intervals that can be chosen among [admitted]. *)
Definition maximum_effective (admitted : list candidate) (n : nat) : Prop :=
  (exists s, s ⊆+ admitted /\ effective_non_overlapping s /\ length s = n)
  /\ (forall s, s ⊆+ admitted -> effective_non_overlapping s ->
        (length s <= n)%nat).

Definition positive_effective_width (c : candidate) : Prop :=
  Transit_Start_Time c < Transit_End_Time c.

(** The transit start and the transit end of a slot. *)
Definition slot_transit_start (s : slot) : Z :=
  Transit_Start_Time (slot_row s).

Definition slot_transit_end (s : slot) : Z := Transit_End_Time (slot_row s).

(** The slots of [schedule], put in ascending order of [start], do not
    overlap: in every such order each slot finishes no later than the next
    one starts. *)
Definition no_overlap_by_start (start finish : slot -> Z)
    (schedule : list slot) : Prop :=
  forall l,
    l ≡ₚ schedule ->
    Sorted (fun a b => start a <= start b) l ->
    Sorted (fun a b => finish a <= start b) l.

(** ** The admission loop, row by row *)

(** What an input row, an admitted row and a cut-list entry have in common:
    the nine values copied from the table. *)
Definition event : Type :=
  string * num * Z * num * num * num * num * num * num.

Definition row_event (r : Row) : event :=
  (planetname r, transitduration r, midpointcalendar r, ra r, dec r,
   period r, transitdepthcalc r, midpointairmass r, magnitude_k r).

Definition candidate_event (c : candidate) : event :=
  (Name c, Duration c, Midpoint c, RA c, Dec c, Period c, Transit_Depth c,
   Air_Mass c, Magnitude_K c).

Definition cut_event (e : cut_entry) : event :=
  (cut_Name e, cut_Duration e, cut_Midpoint e, cut_RA e, cut_Dec e,
   cut_Period e, cut_Transit_Depth e, cut_Air_Mass e, cut_Magnitude_K e).

Definition slot_event (s : slot) : event := candidate_event (slot_row s).

Definition result_event (r : cut_entry + candidate) : event :=
  match r with inl e => cut_event e | inr c => candidate_event c end.

Definition admitted_of (r : cut_entry + candidate) : option candidate :=
  match r with inl _ => None | inr c => Some c end.

Definition rejected_of (r : cut_entry + candidate) : option cut_entry :=
  match r with inl e => Some e | inr _ => None end.

(** ** The admission filter as an ordered list of checks

    The nine checks in their priority order, each with the cause it
    records.  A check is the condition of the corresponding [if] of the
    source, read on its own; the two time-window checks use the transit
    times of the row, which exist when the duration is a number. *)

Section Checks.
Context `{P : Pandas}.

Definition transit_times (cfg : Config) (row : Row) : option (Z * Z) :=
  match transitduration row with
  | NaN => None
  | Fin d =>
    Some (calculate_transit_times (midpointcalendar row) d (setup_time cfg))
  end.

Definition duration_is_nan (row : Row) : bool := isna (transitduration row).

Definition period_outside (cfg : Config) (row : Row) : bool :=
  out_of_range (period_limit cfg) (period row).

Definition starts_before_window (cfg : Config) (row : Row) : bool :=
  match transit_times cfg row with
  | Some (transit_start_time, _) =>
    before_window (fst (time_window cfg)) transit_start_time
  | None => false
  end.

Definition ends_after_window (cfg : Config) (row : Row) : bool :=
  match transit_times cfg row with
  | Some (_, transit_end_time) =>
    after_window (snd (time_window cfg)) transit_end_time
  | None => false
  end.

Definition magnitude_outside (cfg : Config) (row : Row) : bool :=
  out_of_range (magnitude_limit cfg) (magnitude_k row).

Definition air_mass_above_2 (cfg : Config) (row : Row) : bool :=
  air_mass_lim cfg && num_gt (midpointairmass row) 2.

Definition transit_depth_outside (cfg : Config) (row : Row) : bool :=
  out_of_range (transit_depth_limit cfg) (transitdepthcalc row).

Definition ingress_egress_absent (df : DataFrame) (cfg : Config) (row : Row)
    : bool :=
  negb (nanignore_airmass cfg)
  && (isna_opt (ingress_air_mass df row) || isna_opt (egress_air_mass df row)).

Definition ingress_egress_above (df : DataFrame) (cfg : Config) (row : Row)
    : bool :=
  (negb (isna_opt (ingress_air_mass df row))
   && opt_gt (ingress_air_mass df row) (fst (max_airmass cfg)))
  || (negb (isna_opt (egress_air_mass df row))
      && opt_gt (egress_air_mass df row) (snd (max_airmass cfg))).

Definition absent_cause (df : DataFrame) : cause :=
  if ingress_column_exists df && egress_column_exists df
  then NaN_in_ingress_egress
  else Ingress_egress_missing.

Definition checks (df : DataFrame) (cfg : Config)
    : list ((Row -> bool) * cause) :=
  [ (duration_is_nan, Duration_is_NaN);
    (period_outside cfg, Period_limit_exceeded);
    (starts_before_window cfg, Start_before_window);
    (ends_after_window cfg, End_after_window);
    (magnitude_outside cfg, Magnitude_limit_exceeded);
    (air_mass_above_2 cfg, Air_mass_limit_exceeded);
    (transit_depth_outside cfg, Transit_depth_limit_exceeded);
    (ingress_egress_absent df cfg, absent_cause df);
    (ingress_egress_above df cfg, Ingress_egress_limit_exceeded) ].

(** First match wins: the cause of the first check of the list that the row
    fails, [None] when it passes them all. *)
Fixpoint first_failing (cs : list ((Row -> bool) * cause)) (row : Row)
    : option cause :=
  match cs with
  | [] => None
  | (check, k) :: cs' => if check row then Some k else first_failing cs' row
  end.

(** The cause [process_row] records, [None] for an admitted row. *)
Definition recorded_cause (r : cut_entry + candidate) : option cause :=
  match r with inl e => Some (Cause e) | inr _ => None end.

End Checks.

(** ** [calculate_transit_times] within the range of pandas

    pandas stores a [Timestamp] and a [Timedelta] as a signed 64-bit
    number of nanoseconds, the least of which stands for [NaT].  Where an
    offset or a sum is not such a number, pandas raises an out-of-bounds
    error (or yields [NaT]) instead of a timestamp.
    [calculate_transit_times_int64] is the computation of
    [calculate_transit_times], operation by operation, with [None] for
    that outcome. *)

Definition int64_ns (z : Z) : bool := (- 2 ^ 63 <? z) && (z <? 2 ^ 63).

Definition int64 (z : Z) : option Z := if int64_ns z then Some z else None.

Section Int64.
Context `{P : Pandas}.

Definition calculate_transit_times_int64 (midpoint : Z) (duration : Q)
    (setup_time : bool) : option (Z * Z) :=
  midpoint ← int64 midpoint;
  half ← int64 (Timedelta_hours (duration / 2));
  if setup_time then
    padded_start ← int64 (midpoint - minutes_30);
    transit_start_time ← int64 (padded_start - half);
    padded_end ← int64 (midpoint + minutes_30);
    transit_end_time ← int64 (padded_end + half);
    Some (transit_start_time, transit_end_time)
  else
    transit_start_time ← int64 (midpoint - half);
    transit_end_time ← int64 (midpoint + half);
    Some (transit_start_time, transit_end_time).

End Int64.

(** ** A conversion and a sort for the pandas interface

    With these the program is evaluated on the example inputs.

    [hours_to_nanoseconds h] is the whole number of nanoseconds in [h]
    hours, truncated towards zero.  [pd.Timedelta] computes that number in
    floating point: the two agree on a duration whose nanoseconds are a
    whole number that the floating-point product yields exactly, as for the
    durations of the example inputs, and can differ in the last nanosecond
    on other durations.

    The sort is by insertion and keeps rows with equal end times in their
    input order. *)

Definition hours_to_nanoseconds (h : Q) : Z :=
  Z.quot (Qnum h * 3600000000000) (Z.pos (Qden h)).

(** [insert_by_end x l] puts [x] in the sorted list [l], after the rows
    that end earlier and before the others. *)
Fixpoint insert_by_end (x : candidate) (l : list candidate)
    : list candidate :=
  match l with
  | [] => [x]
  | y :: l' =>
    if Transit_End_Time y <? Transit_End_Time x
    then y :: insert_by_end x l'
    else x :: y :: l'
  end.

Definition insertion_sort (l : list candidate) : list candidate :=
  foldr insert_by_end [] l.

(** ** [plot_schedule_with_plotly]: the frame that is plotted

    [optimize_schedule] hands [optimized_schedule_df] to
    [plot_schedule_with_plotly], which builds [plot_df] from its columns
    before it calls the plotting library.  The frame
    [pd.DataFrame(optimized_schedule)] of an empty schedule has no columns,
    and reading a column of it raises [KeyError]; the frame of a schedule
    that has rows has the eleven columns of the rows and the two schedule
    columns.  [plot_frame] is [plot_df], [None] where the column access
    raises.  What the plotting library does with the frame is outside the
    model. *)

Record bar : Type := mkBar {
  Task : string;
  Start : Z;
  Finish : Z;
  Resource : string
}.

Definition plot_frame (schedule_df : list slot) (setup_time : bool)
    : option (list bar) :=
  match schedule_df with
  | [] => None
  | _ =>
    Some (map (fun s =>
                 if setup_time then
                   mkBar (Name (slot_row s)) (Schedule_Start_Time s)
                         (Schedule_End_Time s) (Name (slot_row s))
                 else
                   mkBar (Name (slot_row s))
                         (Transit_Start_Time (slot_row s))
                         (Transit_End_Time (slot_row s))
                         (Name (slot_row s)))
              schedule_df)
  end.

(** ** The call of [optimize_schedule] as a whole

    After the two tables are built, [optimize_schedule] hands the schedule
    to [plot_schedule_with_plotly] and returns the tables when that call
    returns.  [optimize_schedule_result] is [None] where the frame cannot
    be built and the call of [optimize_schedule] ends in [KeyError]; where
    it is [Some], the tables are what the function returns once the
    plotting library has drawn and saved the figure. *)

Definition optimize_schedule_result `{P : Pandas} (df : DataFrame)
    (cfg : Config) : option (list slot * list cut_entry) :=
  let tables := optimize_schedule df cfg in
  match plot_frame tables.1 (setup_time cfg) with
  | Some plot_df => Some tables
  | None => None
  end.

(** ** More definitions for the statements *)

(** The interval from [ts] to [te] is inside the time window, as far as
    the window has bounds. *)
Definition within_window (window : option Z * option Z) (ts te : Z) : Prop :=
  match window.1 with Some w => w <= ts | None => True end
  /\ match window.2 with Some w => te <= w | None => True end.

(** The causes that are recorded before [current_row_info] is built. *)
Definition recorded_without_times (k : cause) : bool :=
  match k with
  | Duration_is_NaN | Period_limit_exceeded
  | Start_before_window | End_after_window => true
  | _ => false
  end.

#[global] Instance cause_eq_dec : EqDecision cause.
Proof. solve_decision. Defined.

(** The 30 minutes the scan adds on each side when the buffer is on. *)
Definition scan_pad (cfg : Config) : Z :=
  if setup_time cfg then minutes_30 else 0.

(** The transit start and end of an admitted row, which are the items 3
    and 4 of the list [count_max_schedules] reads. *)
Definition transit_interval (c : candidate) : Z * Z :=
  (Transit_Start_Time c, Transit_End_Time c).

(** ** Arguments on which the model of [count_max_schedules] follows Python

    No string is iterated or indexed, and no string or list is compared:
    [all_schedules], its candidates and their events are lists of the
    heap, [None], timestamps or floats, and the items 3 and 4 of an event
    that is a list, where it has them, are [None], timestamps or floats. *)

Definition comparable (v : value) : bool :=
  match v with VNone | VTime _ | VNum _ => true | _ => false end.

Definition modelled_event (h : gmap loc (list value)) (v : value) : bool :=
  match v with
  | VText _ => false
  | VRef l =>
    match h !! l with
    | Some items => forallb comparable (take 2 (drop 3 items))
    | None => false
    end
  | _ => true
  end.

Definition modelled_schedule (h : gmap loc (list value)) (v : value) : bool :=
  match v with
  | VText _ => false
  | VRef l =>
    match h !! l with
    | Some events => forallb (modelled_event h) events
    | None => false
    end
  | _ => true
  end.

Definition modelled_schedules (h : gmap loc (list value)) (v : value)
    : bool :=
  match v with
  | VText _ => false
  | VRef l =>
    match h !! l with
    | Some schedules => forallb (modelled_schedule h) schedules
    | None => false
    end
  | _ => true
  end.

(** An event that is a list of at least five items, and a candidate
    schedule that is a list of such events. *)
Definition indexable_event (h : gmap loc (list value)) (v : value) : Prop :=
  exists e items, v = VRef e /\ h !! e = Some items /\ (5 <= length items)%nat.

Definition indexable_schedule (h : gmap loc (list value)) (v : value)
    : Prop :=
  exists c events,
    v = VRef c /\ h !! c = Some events /\ Forall (indexable_event h) events.

(** * Example inputs

    ** Tables for the scheduler *)

(** [clock h m] is the instant [h:m] of the reference day. *)
Definition clock (h m : Z) : Z := (h * 60 + m) * 60000000000.

(** A row that passes every check of the default configuration: a transit
    of [duration] hours around [midpoint]. *)
Definition transit (name : string) (midpoint : Z) (duration : num) : Row :=
  mkRow name duration midpoint (Fin 0) (Fin 0) (Fin 3) (Fin 0.01) (Fin 1.2)
        (Fin 1.3) (Fin 1.3) (Fin 10).

(** The table of the specification's example: A from 10:00 to 11:00, B from
    10:30 to 11:30, C from 11:00 to 12:00. *)
Definition abc_table : DataFrame :=
  mkDataFrame true true
    [ transit "A" (clock 10 30) (Fin 1);
      transit "B" (clock 11 0) (Fin 1);
      transit "C" (clock 11 30) (Fin 1) ].

(** A transit of zero duration at 5:00, listed before a transit from 3:00
    to 5:00. *)
Definition zero_width_table : DataFrame :=
  mkDataFrame true true
    [ transit "X" (clock 5 0) (Fin 0);
      transit "Y" (clock 4 0) (Fin 2) ].

(** A transit from 3:00 to 8:00, and a row whose duration is negative:
    its transit start, 5:00, is after its transit end, 1:00. *)
Definition backwards_table : DataFrame :=
  mkDataFrame true true
    [ transit "x" (clock 5 30) (Fin 5);
      transit "y" (clock 3 0) (Fin (-4)) ].

(** ** Rows and configurations for the admission filter *)

(** A row whose period and magnitude are both outside the configured
    ranges. *)
Definition far_and_faint : Row :=
  mkRow "F" (Fin 1) (clock 10 30) (Fin 0) (Fin 0) (Fin 9) (Fin 0.01)
        (Fin 1.2) (Fin 1.3) (Fin 1.3) (Fin 20).

Definition period_config : Config :=
  mkConfig (Some (0, 14.5)%Q) true false (Some (1, 5)%Q) (Some (0, 0.5)%Q)
           (2, 2)%Q false (None, None).

(** A time window from 20:00 to 23:00, and a table with one transit from
    19:30 to 20:30 and one from 22:30 to 23:30. *)
Definition window_config : Config :=
  mkConfig (Some (0, 14.5)%Q) true false None (Some (0, 0.5)%Q) (2, 2)%Q
           false (Some (clock 20 0), Some (clock 23 0)).

Definition early : Row := transit "E" (clock 20 0) (Fin 1).
Definition late : Row := transit "L" (clock 23 0) (Fin 1).

Definition window_table : DataFrame := mkDataFrame true true [early; late].

(** ** The configuration with and without the setup buffer *)

(** The same configuration with and without setup buffering. *)
Definition with_setup (b : bool) (cfg : Config) : Config :=
  mkConfig (magnitude_limit cfg) (air_mass_lim cfg) b (period_limit cfg)
           (transit_depth_limit cfg) (max_airmass cfg)
           (nanignore_airmass cfg) (time_window cfg).

Definition setup_config : Config := with_setup true default_config.

(** A from 10:00 to 11:00 and B from 12:00 to 13:00: with a buffer of 30
    minutes on each side, A needs the telescope until 11:30 and B from
    11:30. *)
Definition gap_table : DataFrame :=
  mkDataFrame true true
    [ transit "A" (clock 10 30) (Fin 1);
      transit "B" (clock 12 30) (Fin 1) ].

(** ** A range whose maximum is below its minimum *)

(** The magnitude range 10 to 5, and a table with one row of magnitude 7
    and one row whose magnitude is NaN. *)
Definition inverted_config : Config :=
  mkConfig (Some (10, 5)%Q) true false None (Some (0, 0.5)%Q) (2, 2)%Q
           false (None, None).

Definition inverted_table : DataFrame :=
  mkDataFrame true true
    [ mkRow "M" (Fin 1) (clock 10 30) (Fin 0) (Fin 0) (Fin 3) (Fin 0.01)
            (Fin 1.2) (Fin 1.3) (Fin 1.3) (Fin 7);
      mkRow "N" (Fin 1) (clock 12 30) (Fin 0) (Fin 0) (Fin 3) (Fin 0.01)
            (Fin 1.2) (Fin 1.3) (Fin 1.3) NaN ].

(** A heap with two events, A from 10:00 to 11:00 at location 3 and B from
    10:30 to 11:30 at location 4; the candidate schedules [A; B] at
    location 1 and [B; A] at location 2, which share the two events; and
    the list of the two candidates at location 0. *)
Definition event_items (name : string) (start finish : Z) : list value :=
  [ VText name; VNum (Fin 1); VTime (start + 1800000000000); VTime start;
    VTime finish; VNum (Fin 0); VNum (Fin 0); VNum (Fin 3);
    VNum (Fin 0.01); VNum (Fin 1.2); VNum (Fin 10) ].

Definition shared_heap : gmap loc (list value) :=
  list_to_map
    [ (0%nat, [VRef 1%nat; VRef 2%nat]);
      (1%nat, [VRef 3%nat; VRef 4%nat]);
      (2%nat, [VRef 4%nat; VRef 3%nat]);
      (3%nat, event_items "A" (clock 10 0) (clock 11 0));
      (4%nat, event_items "B" (clock 10 30) (clock 11 30)) ].

(** ** More example inputs *)

(** A transit from 21:00 to 22:00, and a table with it between the two
    transits that cross the bounds of the window. *)
Definition inside : Row := transit "I" (clock 21 30) (Fin 1).

Definition evening_table : DataFrame :=
  mkDataFrame true true [early; inside; late].

(** The table of A, B and C without the ingress column. *)
Definition no_ingress_table : DataFrame :=
  mkDataFrame false true (rows abc_table).

(** The table of A, B and C without both columns, a row of magnitude 20
    added, and the default configuration with [nanignore_airmass] set. *)
Definition no_air_mass_columns_table : DataFrame :=
  mkDataFrame false false (rows abc_table ++ [far_and_faint]).

Definition nanignore_config : Config :=
  mkConfig (Some (0, 14.5)%Q) true false None (Some (0, 0.5)%Q) (2, 2)%Q
           true (None, None).

(** A table in which the period, the magnitude, the mid air mass and the
    transit depth of the first row are NaN, and a second row overlaps the
    first. *)
Definition nan_cells_table : DataFrame :=
  mkDataFrame true true
    [ mkRow "U" (Fin 1) (clock 10 30) (Fin 0) (Fin 0) NaN NaN NaN (Fin 1.3)
            (Fin 1.3) NaN;
      transit "V" (clock 11 0) (Fin 1);
      transit "W" (clock 9 0) NaN;
      far_and_faint ].

(** A heap with one candidate schedule of three events: A with floats for
    its start and end, B whose end is [None], and C. *)
Definition mixed_heap : gmap loc (list value) :=
  list_to_map
    [ (0%nat, [VRef 1%nat]);
      (1%nat, [VRef 2%nat; VRef 3%nat; VRef 4%nat]);
      (2%nat, [VText "A"; VNum (Fin 1); VNum (Fin 10.5); VNum (Fin 10);
               VNum (Fin 11)]);
      (3%nat, [VText "B"; VNum (Fin 1); VNum (Fin 12.5); VNum (Fin 12);
               VNone]);
      (4%nat, event_items "C" (clock 11 0) (clock 12 0)) ].

(** A heap whose one candidate schedule holds an event of four items. *)
Definition short_event_heap : gmap loc (list value) :=
  list_to_map
    [ (0%nat, [VRef 1%nat]);
      (1%nat, [VRef 2%nat; VRef 3%nat]);
      (2%nat, event_items "A" (clock 10 0) (clock 11 0));
      (3%nat, [VText "B"; VNum (Fin 1); VTime (clock 11 0);
               VTime (clock 10 30)]) ].

(** A heap with the candidates [[]], [[A]] and [[A; C]]. *)
Definition three_candidates_heap : gmap loc (list value) :=
  list_to_map
    [ (0%nat, [VRef 1%nat; VRef 2%nat; VRef 3%nat]);
      (1%nat, []);
      (2%nat, [VRef 4%nat]);
      (3%nat, [VRef 4%nat; VRef 5%nat]);
      (4%nat, event_items "A" (clock 10 0) (clock 11 0));
      (5%nat, event_items "C" (clock 11 0) (clock 12 0)) ].


(** The table of A, B and C with its rows in the opposite order. *)
Definition cba_table : DataFrame :=
  mkDataFrame true true (reverse (rows abc_table)).

(** * Properties *)

(** ** An implementation of the pandas interface *)

Lemma hours_to_nanoseconds_0 h : (h == 0)%Q -> hours_to_nanoseconds h = 0.
Proof.
  unfold Qeq, hours_to_nanoseconds. simpl. intros E.
  replace (Qnum h) with 0 by lia. reflexivity.
Qed.

Lemma insert_by_end_Permutation x l : insert_by_end x l ≡ₚ x :: l.
Proof.
  induction l as [|y l IH]; simpl; [reflexivity|].
  destruct (_ <? _); [|reflexivity].
  rewrite IH. apply Permutation_swap.
Qed.

Lemma insertion_sort_Permutation l : insertion_sort l ≡ₚ l.
Proof.
  induction l as [|x l IH]; simpl; [reflexivity|].
  rewrite insert_by_end_Permutation. by rewrite IH.
Qed.

Lemma insert_by_end_HdRel a x l :
  by_end a x -> HdRel by_end a l -> HdRel by_end a (insert_by_end x l).
Proof.
  intros Hax Hal. destruct l as [|y l]; simpl; [by constructor|].
  destruct (_ <? _); constructor; [by inversion Hal|done].
Qed.

Lemma insert_by_end_Sorted x l :
  Sorted by_end l -> Sorted by_end (insert_by_end x l).
Proof.
  induction 1 as [|y l Hl IH Hy]; simpl; [by repeat constructor|].
  destruct (_ <? _) eqn:E.
  - constructor; [done|]. apply insert_by_end_HdRel; [|done].
    unfold by_end. lia.
  - constructor; [by constructor|]. constructor. unfold by_end. lia.
Qed.

Lemma insertion_sort_Sorted l : Sorted by_end (insertion_sort l).
Proof.
  induction l as [|x l IH]; simpl; [constructor|].
  by apply insert_by_end_Sorted.
Qed.

(** The interface with the conversion and the sort above. *)
Definition stable_pandas : Pandas :=
  {| Timedelta_hours := hours_to_nanoseconds;
     Timedelta_hours_0 := hours_to_nanoseconds_0;
     sort_values := insertion_sort;
     sort_values_Permutation := insertion_sort_Permutation;
     sort_values_Sorted := insertion_sort_Sorted |}.

(** ** The greedy scan *)

Section Scan.
Context (cfg : Config).

Lemma scan_fold l st :
  fold_left (scan_step cfg) l st =
  mkScan (optimized_schedule st ++ accepted cfg (last_end_time st) l)
         (cut_list st ++
            map (fun row => with_cause row Overlapping)
                (overlapped cfg (last_end_time st) l))
         (final_end cfg (last_end_time st) l).
Proof.
  revert st. induction l as [|row l IH]; intros [o c t]; simpl.
  - by rewrite !app_nil_r.
  - rewrite IH. unfold scan_step. simpl.
    destruct (fits t _); simpl; by rewrite <- ?app_assoc.
Qed.

Lemma accepted_sublist t l : accepted cfg t l `sublist_of` l.
Proof.
  revert t. induction l as [|x l IH]; intros t; simpl; [constructor|].
  destruct (fits t _); by constructor.
Qed.

Lemma accepted_overlapped_Permutation t l :
  accepted cfg t l ++ overlapped cfg t l ≡ₚ l.
Proof.
  revert t. induction l as [|x l IH]; intros t; simpl; [done|].
  destruct (fits t _); simpl.
  - by rewrite IH.
  - rewrite <- Permutation_middle. by rewrite IH.
Qed.

Lemma by_end_schedule_end a b : by_end a b <-> by_schedule_end cfg a b.
Proof.
  unfold by_end, by_schedule_end, schedule_end_time.
  destruct (setup_time cfg); lia.
Qed.

Lemma Sorted_by_schedule_end l :
  Sorted by_end l -> StronglySorted (by_schedule_end cfg) l.
Proof.
  intros H. apply Sorted.Sorted_StronglySorted.
  - intros a b c. unfold by_schedule_end. lia.
  - induction H as [|a l Hl IH Ha]; constructor; [done|].
    destruct Ha; constructor. by apply by_end_schedule_end.
Qed.

(** Every accepted row starts at or after the bound the scan started from,
    provided no row of the list ends before that bound. *)
Lemma accepted_after t l :
  StronglySorted (by_schedule_end cfg) l ->
  Forall (fun x => t <= schedule_end_time cfg x) l ->
  Forall (fun x => t <= schedule_start_time cfg x) (accepted cfg (Some t) l).
Proof.
  intros Hs. revert t. induction Hs as [|x l Hl IH Hx]; intros t Ht; simpl.
  - constructor.
  - inversion Ht as [|? ? Htx Htl]; subst.
    destruct (t <=? schedule_start_time cfg x) eqn:E.
    + apply Z.leb_le in E. constructor; [done|].
      eapply Forall_impl; [apply IH, Hx|]. simpl. intros; lia.
    + by apply IH.
Qed.

Lemma accepted_StronglySorted t l :
  StronglySorted (by_schedule_end cfg) l ->
  StronglySorted (row_precedes cfg) (accepted cfg t l).
Proof.
  intros Hs. revert t. induction Hs as [|x l Hl IH Hx]; intros t; simpl.
  - constructor.
  - destruct (fits t _); [|apply IH].
    constructor; [apply IH|]. by apply accepted_after.
Qed.

Lemma StronglySorted_non_overlapping s :
  StronglySorted (row_precedes cfg) s -> non_overlapping cfg s.
Proof.
  induction 1 as [|a s Hs IH Ha]; simpl; [done|]. split; [|done].
  eapply Forall_impl; [exact Ha|]. intros b Hb. by left.
Qed.

Lemma disjoint_sym a b : disjoint cfg a b -> disjoint cfg b a.
Proof. unfold disjoint. tauto. Qed.

Lemma non_overlapping_Permutation s s' :
  s ≡ₚ s' -> non_overlapping cfg s -> non_overlapping cfg s'.
Proof.
  induction 1 as [|x s s' Hp IH|x y s|s1 s2 s3 H1 IH1 H2 IH2]; simpl.
  - done.
  - intros [Hx Hs]. split; [by rewrite <- Hp|auto].
  - intros [Hy [Hx Hs]]. inversion Hy as [|? ? Hyx Hys]; subst.
    repeat split; try done. constructor; [by apply disjoint_sym|done].
  - auto.
Qed.

Lemma non_overlapping_sublist s s' :
  s' `sublist_of` s -> non_overlapping cfg s -> non_overlapping cfg s'.
Proof.
  induction 1 as [|x s' s Hsub IH|x s' s Hsub IH]; simpl.
  - done.
  - intros [Hx Hs]. split; [|auto].
    eapply Forall_forall. intros y Hy. rewrite Forall_forall in Hx.
    apply Hx. eapply elem_of_sublist; eauto.
  - intros [_ Hs]. auto.
Qed.

Lemma disjointb_spec a b : disjointb cfg a b = true <-> disjoint cfg a b.
Proof.
  unfold disjointb, disjoint. rewrite orb_true_iff, !Z.leb_le. tauto.
Qed.

Lemma non_overlappingb_spec s :
  non_overlappingb cfg s = true <-> non_overlapping cfg s.
Proof.
  induction s as [|a s IH]; simpl; [tauto|].
  rewrite andb_true_iff, IH, forallb_forall, Forall_forall.
  split; intros [H1 H2]; split; try done; intros b Hb.
  - apply disjointb_spec, H1. by apply list_elem_of_In.
  - apply disjointb_spec, H1. by apply list_elem_of_In.
Qed.

End Scan.

Section Optimality.
Context (cfg : Config).

Lemma StronglySorted_sublist {A} (R : relation A) (s l : list A) :
  s `sublist_of` l -> StronglySorted R l -> StronglySorted R s.
Proof.
  induction 1 as [|x s l Hsub IH|x s l Hsub IH]; intros Hl.
  - constructor.
  - inversion Hl as [|? ? Hl' Hx]; subst. constructor; [auto|].
    rewrite Forall_forall in Hx |- *. intros y Hy. apply Hx.
    eapply elem_of_sublist; eauto.
  - inversion Hl; subst. auto.
Qed.

(** A row of positive width that ends first, and overlaps none of the
    others, ends before each of them starts. *)
Lemma first_to_end_precedes a s :
  positive_width cfg a ->
  Forall (by_schedule_end cfg a) s ->
  Forall (disjoint cfg a) s ->
  Forall (row_precedes cfg a) s.
Proof.
  intros Ha Hend Hdis. rewrite Forall_forall in Hend, Hdis |- *.
  intros z Hz. specialize (Hend z Hz). specialize (Hdis z Hz).
  unfold positive_width, by_schedule_end, disjoint, row_precedes in *. lia.
Qed.

Lemma precedes_fits a s :
  Forall (row_precedes cfg a) s ->
  Forall (fun z => fits (Some (schedule_end_time cfg a))
                        (schedule_start_time cfg z) = true) s.
Proof.
  intros H. eapply Forall_impl; [exact H|].
  intros z Hz. simpl. by apply Z.leb_le.
Qed.

(** The scan stays ahead: no non-overlapping choice among the rows of a
    list sorted by end time, all of which start at or after the bound the
    scan starts from, has more rows than the scan accepts. *)
Lemma accepted_optimal l :
  StronglySorted (by_schedule_end cfg) l ->
  Forall (positive_width cfg) l ->
  forall t s,
    s `sublist_of` l ->
    non_overlapping cfg s ->
    Forall (fun z => fits t (schedule_start_time cfg z) = true) s ->
    (length s <= length (accepted cfg t l))%nat.
Proof.
  induction 1 as [|x l Hl IH Hx]; intros Hw t s Hsub Hno Hfit.
  - apply sublist_nil_r in Hsub as ->. simpl. lia.
  - inversion Hw as [|? ? Hwx Hwl]; subst.
    apply sublist_cons_r in Hsub as [Hsub|(s' & -> & Hsub)]; simpl.
    + destruct (fits t (schedule_start_time cfg x)) eqn:E; [|by apply IH].
      destruct s as [|y s'']; simpl; [lia|].
      destruct Hno as [Hy Hno].
      assert (y ∈ l) as Hyl.
      { eapply elem_of_sublist; [|exact Hsub]. by left. }
      assert (s'' `sublist_of` l) as Hsub'.
      { etrans; [|exact Hsub]. by apply sublist_cons. }
      assert (Forall (row_precedes cfg y) s'') as Hprec.
      { apply first_to_end_precedes; [|  |done].
        - rewrite Forall_forall in Hwl. by apply Hwl.
        - pose proof (StronglySorted_sublist _ _ _ Hsub Hl) as Hs.
          by inversion Hs. }
      apply le_n_S, IH; [done|done|done|].
      rewrite Forall_forall in Hx. specialize (Hx y Hyl).
      eapply Forall_impl; [exact Hprec|]. intros z Hz. simpl.
      apply Z.leb_le. unfold by_schedule_end, row_precedes in *. lia.
    + inversion Hfit as [|? ? Hfx Hfs]; subst. rewrite Hfx. simpl.
      destruct Hno as [Hdis Hno].
      apply le_n_S, IH; [done|done|done|].
      apply precedes_fits, first_to_end_precedes; [done| |done].
      rewrite Forall_forall in Hx |- *. intros z Hz. apply Hx.
      eapply elem_of_sublist; eauto.
Qed.

End Optimality.

(** ** The two tables [optimize_schedule] returns *)

Section Tables.
Context `{P : Pandas}.

Lemma optimize_schedule_schedule df cfg :
  (optimize_schedule df cfg).1 =
  map (add_schedule_columns cfg)
      (accepted cfg None (sort_values (admission df cfg).1)).
Proof. unfold optimize_schedule. by rewrite scan_fold. Qed.

Lemma optimize_schedule_cut_list df cfg :
  (optimize_schedule df cfg).2 =
  (admission df cfg).2 ++
  map (fun row => with_cause row Overlapping)
      (overlapped cfg None (sort_values (admission df cfg).1)).
Proof. unfold optimize_schedule. by rewrite scan_fold. Qed.

Lemma sorted_admitted df cfg :
  StronglySorted (by_schedule_end cfg) (sort_values (admission df cfg).1).
Proof. apply Sorted_by_schedule_end, sort_values_Sorted. Qed.

End Tables.

(** ** The admission loop *)

Section Admission.
Context `{P : Pandas}.

Lemma admission_fold df cfg l st :
  fold_left (admission_step df cfg) l st =
  (st.1 ++ omap (fun r => admitted_of (process_row df cfg r)) l,
   st.2 ++ omap (fun r => rejected_of (process_row df cfg r)) l).
Proof.
  revert st. induction l as [|r l IH]; intros [v c]; simpl.
  - by rewrite !app_nil_r.
  - rewrite IH. unfold admission_step.
    destruct (process_row df cfg r); simpl; by rewrite <- ?app_assoc.
Qed.

Lemma admission_admitted df cfg :
  (admission df cfg).1 =
  omap (fun r => admitted_of (process_row df cfg r)) (rows df).
Proof. unfold admission. by rewrite admission_fold. Qed.

Lemma admission_rejected df cfg :
  (admission df cfg).2 =
  omap (fun r => rejected_of (process_row df cfg r)) (rows df).
Proof. unfold admission. by rewrite admission_fold. Qed.

Lemma process_row_event df cfg r :
  result_event (process_row df cfg r) = row_event r.
Proof.
  unfold process_row, row_event.
  destruct (transitduration r); [reflexivity|].
  destruct (out_of_range (period_limit cfg) _); [reflexivity|].
  destruct (calculate_transit_times _ _ _) as [ts te].
  destruct (before_window _ _); [reflexivity|].
  destruct (after_window _ _); [reflexivity|].
  repeat
    (match goal with
     | |- context [if ?b then inl _ else _] => destruct b
     end; [reflexivity|]).
  reflexivity.
Qed.

(** The admission loop sends each row to one of its two lists. *)
Lemma admission_partition df cfg :
  map candidate_event (admission df cfg).1
  ++ map cut_event (admission df cfg).2
  ≡ₚ map row_event (rows df).
Proof.
  rewrite admission_admitted, admission_rejected.
  induction (rows df) as [|r l IH]; simpl; [done|].
  pose proof (process_row_event df cfg r) as E.
  destruct (process_row df cfg r) as [e|c]; simpl in *; rewrite <- E.
  - rewrite <- Permutation_middle. by rewrite IH.
  - by rewrite IH.
Qed.

Lemma cut_event_with_cause c k : cut_event (with_cause c k) = candidate_event c.
Proof. reflexivity. Qed.

(** Both loops together: the rows of the two returned tables are the rows
    of the input table. *)
Lemma tables_partition df cfg :
  map slot_event (optimize_schedule df cfg).1
  ++ map cut_event (optimize_schedule df cfg).2
  ≡ₚ map row_event (rows df).
Proof.
  rewrite optimize_schedule_schedule, optimize_schedule_cut_list.
  rewrite <- (admission_partition df cfg).
  set (adm := (admission df cfg).1). set (cut := (admission df cfg).2).
  set (srt := sort_values adm).
  rewrite map_app, !map_map.
  rewrite (map_ext _ candidate_event) by reflexivity.
  rewrite (map_ext (fun x => cut_event _) candidate_event) by reflexivity.
  rewrite (Permutation_app_comm (map cut_event cut)).
  rewrite app_assoc. apply Permutation_app; [|done].
  rewrite <- map_app. apply Permutation_map.
  rewrite accepted_overlapped_Permutation. apply sort_values_Permutation.
Qed.

End Admission.

(** ** The checks of the admission filter *)

Section ChecksFacts.
Context `{P : Pandas}.

Lemma recorded_cause_first_failing df cfg row :
  recorded_cause (process_row df cfg row) = first_failing (checks df cfg) row.
Proof.
  unfold process_row, checks, first_failing, duration_is_nan, period_outside,
    starts_before_window, ends_after_window, magnitude_outside,
    air_mass_above_2, transit_depth_outside, ingress_egress_absent,
    ingress_egress_above, absent_cause, transit_times.
  destruct (transitduration row); simpl; [reflexivity|].
  destruct (out_of_range (period_limit cfg) _); [reflexivity|].
  destruct (calculate_transit_times _ _ _) as [ts te].
  destruct (before_window _ _); [reflexivity|].
  destruct (after_window _ _); [reflexivity|].
  destruct (out_of_range (magnitude_limit cfg) _); [reflexivity|].
  destruct (air_mass_lim cfg && _); [reflexivity|].
  destruct (out_of_range (transit_depth_limit cfg) _); [reflexivity|].
  destruct (negb (nanignore_airmass cfg) && _); [reflexivity|].
  destruct (_ || _); reflexivity.
Qed.

(** What [first_failing] computes: the cause at the least position whose
    check fails. *)
Lemma first_failing_Some cs row k :
  first_failing cs row = Some k <->
  exists i check,
    cs !! i = Some (check, k) /\ check row = true
    /\ forall j c, (j < i)%nat -> cs !! j = Some c -> c.1 row = false.
Proof.
  induction cs as [|[check0 k0] cs IH]; simpl.
  - split; [done|]. by intros (i & c & ? & _).
  - destruct (check0 row) eqn:E.
    + split.
      * intros [= <-]. exists 0%nat, check0. repeat split; [done|]. lia.
      * intros (i & c & Hi & Hc & Hmin). destruct i as [|i].
        { simpl in Hi. congruence. }
        specialize (Hmin 0%nat (check0, k0)). simpl in Hmin.
        rewrite Hmin in E; [done|lia|done].
    + rewrite IH. split.
      * intros (i & c & Hi & Hc & Hmin). exists (S i), c.
        repeat split; [done|done|]. intros [|j] c' Hj Hc'; simpl in *.
        { by injection Hc' as <-. }
        eapply Hmin; [|done]. lia.
      * intros (i & c & Hi & Hc & Hmin). destruct i as [|i]; simpl in Hi.
        { congruence. }
        exists i, c. repeat split; [done|done|]. intros j c' Hj Hc'.
        apply (Hmin (S j)); [lia|done].
Qed.

Lemma first_failing_None cs row :
  first_failing cs row = None <-> Forall (fun c => c.1 row = false) cs.
Proof.
  induction cs as [|[check0 k0] cs IH]; simpl.
  - split; [constructor|done].
  - destruct (check0 row) eqn:E.
    + split; [done|]. intros H. inversion H; simpl in *; congruence.
    + rewrite IH. split; [by constructor|]. by inversion 1.
Qed.

End ChecksFacts.

(** ** The schedule *)

Section Scheduler.
Context `{P : Pandas}.

Lemma accepted_submseteq df cfg :
  accepted cfg None (sort_values (admission df cfg).1)
  ⊆+ (admission df cfg).1.
Proof.
  rewrite <- (sort_values_Permutation (admission df cfg).1) at 2.
  apply sublist_submseteq, accepted_sublist.
Qed.

Lemma accepted_maximum df cfg :
  Forall (positive_width cfg) (admission df cfg).1 ->
  maximum_non_overlapping cfg (admission df cfg).1
    (length (accepted cfg None (sort_values (admission df cfg).1))).
Proof.
  intros Hw. split.
  - eexists. split; [apply accepted_submseteq|]. split; [|reflexivity].
    apply StronglySorted_non_overlapping, accepted_StronglySorted,
      sorted_admitted.
  - intros s Hs Hno.
    rewrite <- (sort_values_Permutation (admission df cfg).1) in Hs.
    apply submseteq_sublist_r in Hs as (s' & Hperm & Hsub).
    rewrite Hperm.
    apply accepted_optimal; [apply sorted_admitted| |done| |].
    + by rewrite sort_values_Permutation.
    + by eapply non_overlapping_Permutation.
    + apply Forall_true. done.
Qed.

Lemma map_add_schedule_columns_StronglySorted cfg l :
  StronglySorted (row_precedes cfg) l ->
  StronglySorted precedes (map (add_schedule_columns cfg) l).
Proof.
  induction 1 as [|a l Hl IH Ha]; simpl; constructor; [done|].
  apply Forall_fmap. eapply Forall_impl; [exact Ha|]. by intros b Hb.
Qed.

Lemma schedule_StronglySorted df cfg :
  StronglySorted precedes (optimize_schedule df cfg).1.
Proof.
  rewrite optimize_schedule_schedule.
  apply map_add_schedule_columns_StronglySorted, accepted_StronglySorted,
    sorted_admitted.
Qed.

Lemma admitted_from_row df cfg c :
  c ∈ (admission df cfg).1 ->
  exists row, row ∈ rows df /\ process_row df cfg row = inr c.
Proof.
  rewrite admission_admitted, list_elem_of_omap.
  intros (row & Hrow & Hc). exists row. split; [done|].
  by destruct (process_row df cfg row); simplify_eq/=.
Qed.

Lemma scheduled_from_admitted df cfg s :
  s ∈ (optimize_schedule df cfg).1 ->
  slot_row s ∈ (admission df cfg).1.
Proof.
  rewrite optimize_schedule_schedule. intros Hs.
  apply list_elem_of_fmap in Hs as (c & -> & Hc). simpl.
  eapply elem_of_submseteq; [exact Hc|apply accepted_submseteq].
Qed.

End Scheduler.

(** ** Effective intervals and the test of the scan *)

Section Effective.
Context (cfg : Config).

(** Without the setup buffer the scan tests the effective intervals. *)
Lemma disjoint_effective a b :
  setup_time cfg = false -> disjoint cfg a b <-> effective_disjoint a b.
Proof.
  intros Hs. unfold disjoint, effective_disjoint, schedule_start_time,
    schedule_end_time. by rewrite Hs.
Qed.

Lemma non_overlapping_effective s :
  setup_time cfg = false ->
  non_overlapping cfg s <-> effective_non_overlapping s.
Proof.
  intros Hs. induction s as [|a s IH]; simpl; [done|].
  rewrite IH. apply and_iff_compat_r.
  rewrite !Forall_forall. apply forall_proper. intros b.
  by rewrite disjoint_effective.
Qed.

Lemma maximum_effective_iff l n :
  setup_time cfg = false ->
  maximum_non_overlapping cfg l n <-> maximum_effective l n.
Proof.
  intros Hs. unfold maximum_non_overlapping, maximum_effective.
  split; intros [(s & Hsub & Hno & Hlen) Hmax]; split.
  - exists s. by rewrite <- non_overlapping_effective.
  - intros s' Hsub' Hno'. apply Hmax; [done|].
    by rewrite non_overlapping_effective.
  - exists s. by rewrite non_overlapping_effective.
  - intros s' Hsub' Hno'. apply Hmax; [done|].
    by rewrite <- non_overlapping_effective.
Qed.

Lemma positive_width_effective c :
  setup_time cfg = false ->
  positive_width cfg c <-> positive_effective_width c.
Proof.
  intros Hs. unfold positive_width, positive_effective_width,
    schedule_start_time, schedule_end_time. by rewrite Hs.
Qed.

End Effective.

(** Effective intervals do not overlap when the boolean test, taken
    without the buffer, says so. *)
Lemma effective_non_overlapping_test s :
  non_overlappingb default_config s = true -> effective_non_overlapping s.
Proof.
  intros H. apply (non_overlapping_effective default_config); [done|].
  by apply non_overlappingb_spec.
Qed.

(** C1 (as amended): without the setup buffer, when the effective interval
    of every admitted event has positive width, the number of slots of the
    schedule of [optimize_schedule] is the largest number of admitted
    events with pairwise non-overlapping effective intervals: some choice
    of admitted events has that many events, and no choice has more. *)
Theorem greedy_schedule_is_maximum `{P : Pandas} df cfg :
  setup_time cfg = false ->
  Forall positive_effective_width (admission df cfg).1 ->
  maximum_effective (admission df cfg).1
    (length (optimize_schedule df cfg).1).
Proof.
  intros Hs Hw. apply (maximum_effective_iff cfg); [done|].
  rewrite optimize_schedule_schedule, length_map.
  apply accepted_maximum.
  eapply Forall_impl; [exact Hw|]. intros c Hc.
  by apply positive_width_effective.
Qed.

Lemma greedy_schedule_is_maximum_witness :
  maximum_effective
    (admission (P := stable_pandas) abc_table default_config).1
    (length (optimize_schedule (P := stable_pandas) abc_table
               default_config).1).
Proof.
  apply (greedy_schedule_is_maximum (P := stable_pandas) abc_table
           default_config).
  - reflexivity.
  - vm_compute. repeat constructor.
Defined.

(** C1 (as stated) fails: with a zero-duration transit X at 5:00 listed
    before a transit Y from 3:00 to 5:00 and no setup buffer, both are
    admitted and their effective intervals do not overlap (Y ends when X
    starts); X comes first among the rows that end at 5:00, the scan
    accepts X and rejects Y, and the schedule has one slot where two events
    fit. *)
Lemma greedy_schedule_not_maximum_zero_width :
  ~ maximum_effective
      (admission (P := stable_pandas) zero_width_table default_config).1
      (length (optimize_schedule (P := stable_pandas) zero_width_table
                 default_config).1).
Proof.
  intros [_ Hmax].
  specialize (Hmax (admission (P := stable_pandas) zero_width_table
                      default_config).1).
  assert (length (admission (P := stable_pandas) zero_width_table
                    default_config).1 = 2%nat) as E1 by (vm_compute; reflexivity).
  assert (length (optimize_schedule (P := stable_pandas) zero_width_table
                    default_config).1 = 1%nat) as E2 by (vm_compute; reflexivity).
  rewrite E1, E2 in Hmax.
  assert (2 <= 1)%nat; [|lia]. apply Hmax; [reflexivity|].
  apply effective_non_overlapping_test. vm_compute. reflexivity.
Qed.

(** With the setup buffer on, the scan does not test the effective
    intervals but these intervals moved outwards by 30 more minutes, and
    its schedule can be smaller than the largest choice: the effective
    intervals of A (9:30 to 11:30) and B (11:30 to 13:30) have positive
    width and do not overlap, and the schedule has one slot. *)
Lemma greedy_schedule_with_setup_not_maximum :
  Forall positive_effective_width
    (admission (P := stable_pandas) gap_table setup_config).1
  /\ ~ maximum_effective
        (admission (P := stable_pandas) gap_table setup_config).1
        (length (optimize_schedule (P := stable_pandas) gap_table
                   setup_config).1).
Proof.
  split; [vm_compute; repeat constructor|].
  intros [_ Hmax].
  specialize (Hmax (admission (P := stable_pandas) gap_table
                      setup_config).1).
  assert (length (admission (P := stable_pandas) gap_table
                    setup_config).1 = 2%nat) as E1 by (vm_compute; reflexivity).
  assert (length (optimize_schedule (P := stable_pandas) gap_table
                    setup_config).1 = 1%nat) as E2 by (vm_compute; reflexivity).
  rewrite E1, E2 in Hmax.
  assert (2 <= 1)%nat; [|lia]. apply Hmax; [reflexivity|].
  apply effective_non_overlapping_test. vm_compute. reflexivity.
Qed.

(** ** The order of the slots *)

Section SlotOrder.

Lemma StronglySorted_map_impl {A B} (R : relation A) (R' : relation B)
    (f : A -> B) l :
  (forall a b, R a b -> R' (f a) (f b)) ->
  StronglySorted R l -> StronglySorted R' (map f l).
Proof.
  intros HR. induction 1 as [|a l Hl IH Ha]; simpl; constructor; [done|].
  apply Forall_fmap. eapply Forall_impl; [exact Ha|]. intros b. apply HR.
Qed.

Context (start finish : slot -> Z).

(** Slots in an order in which each finishes before the later ones start,
    none of which finishes before it starts, are in ascending order of
    start. *)
Lemma StronglySorted_by_start sched :
  StronglySorted (fun a b => finish a <= start b) sched ->
  Forall (fun s => start s <= finish s) sched ->
  StronglySorted (fun a b => start a <= start b) sched.
Proof.
  induction 1 as [|a l Hl IH Ha]; intros Hw; [constructor|].
  inversion Hw as [|? ? Hwa Hwl]; subst.
  constructor; [by apply IH|].
  eapply Forall_impl; [exact Ha|]. simpl. intros; lia.
Qed.

(** When the slots have positive width, that order is the only ascending
    order of start. *)
Lemma sorted_by_start_unique sched :
  StronglySorted (fun a b => finish a <= start b) sched ->
  Forall (fun s => start s < finish s) sched ->
  forall l,
    l ≡ₚ sched -> Sorted (fun a b => start a <= start b) l -> l = sched.
Proof.
  induction 1 as [|a s Hs IH Ha]; intros Hw l Hp Hl.
  - by apply Permutation_nil_r in Hp.
  - inversion Hw as [|? ? Hwa Hws]; subst.
    destruct l as [|x l]; [by apply Permutation_nil_cons in Hp|].
    apply Sorted.Sorted_StronglySorted in Hl; [|intros u v w; lia].
    inversion Hl as [|? ? Hl' Hx]; subst.
    assert (x = a) as ->.
    { assert (x ∈ a :: s) as Hin by (rewrite <- Hp; left).
      apply elem_of_cons in Hin as [->|Hin]; [done|].
      assert (a ∈ x :: l) as Hin' by (rewrite Hp; left).
      apply elem_of_cons in Hin' as [->|Hin']; [done|].
      rewrite Forall_forall in Ha, Hx.
      specialize (Ha x Hin). specialize (Hx a Hin'). lia. }
    f_equal. apply IH; [done| |by apply StronglySorted_Sorted].
    by apply Permutation_cons_inv in Hp.
Qed.

Lemma no_overlap_by_start_positive sched :
  StronglySorted (fun a b => finish a <= start b) sched ->
  Forall (fun s => start s < finish s) sched ->
  no_overlap_by_start start finish sched.
Proof.
  intros Hs Hw l Hp Hl.
  rewrite (sorted_by_start_unique sched Hs Hw l Hp Hl).
  by apply StronglySorted_Sorted.
Qed.

End SlotOrder.

Section ScheduleOrder.
Context `{P : Pandas}.

Lemma pad_nonneg : 0 <= minutes_30.
Proof. unfold minutes_30. lia. Qed.

Lemma schedule_transit_StronglySorted df cfg :
  StronglySorted (fun a b => slot_transit_end a <= slot_transit_start b)
                 (optimize_schedule df cfg).1.
Proof.
  rewrite optimize_schedule_schedule.
  eapply StronglySorted_map_impl;
    [|apply accepted_StronglySorted, sorted_admitted].
  intros a b. unfold row_precedes, schedule_start_time, schedule_end_time,
    slot_transit_start, slot_transit_end. simpl.
  pose proof pad_nonneg. destruct (setup_time cfg); lia.
Qed.

Lemma schedule_ascending_by_end df cfg :
  StronglySorted (fun a b => Schedule_End_Time a <= Schedule_End_Time b)
                 (optimize_schedule df cfg).1.
Proof.
  rewrite optimize_schedule_schedule.
  eapply StronglySorted_map_impl;
    [|eapply StronglySorted_sublist;
      [apply accepted_sublist|apply sorted_admitted]].
  intros a b Hab. exact Hab.
Qed.

(** The schedule columns of a slot contain its transit interval. *)
Lemma schedule_columns_contain_transit df cfg :
  Forall (fun s => Schedule_Start_Time s <= slot_transit_start s
                   /\ slot_transit_end s <= Schedule_End_Time s)
         (optimize_schedule df cfg).1.
Proof.
  rewrite optimize_schedule_schedule. apply Forall_fmap, Forall_true.
  intros c. unfold slot_transit_start, slot_transit_end. simpl.
  pose proof pad_nonneg. destruct (setup_time cfg); lia.
Qed.

End ScheduleOrder.

(** C2 (as amended): in the schedule of [optimize_schedule], in the order
    in which it is returned, every slot ends no later than the next slot
    starts (first conjunct) and no later than any following slot starts
    (second conjunct), by the schedule start and end times of the slots,
    and by their transit start and end times as well (third conjunct).
    That order is ascending in schedule end time (fourth conjunct).  It is
    ascending in schedule start time when no slot has its transit end
    before its transit start (fifth conjunct).  When every slot has its
    transit start before its transit end, it is the only ascending order of
    start, so that the slots ordered by start time do not overlap, by the
    schedule times and by the transit times (sixth conjunct). *)
Theorem schedule_slots_do_not_overlap `{P : Pandas} df cfg :
  Sorted precedes (optimize_schedule df cfg).1
  /\ StronglySorted precedes (optimize_schedule df cfg).1
  /\ StronglySorted (fun a b => slot_transit_end a <= slot_transit_start b)
                    (optimize_schedule df cfg).1
  /\ StronglySorted (fun a b => Schedule_End_Time a <= Schedule_End_Time b)
                    (optimize_schedule df cfg).1
  /\ (Forall (fun s => slot_transit_start s <= slot_transit_end s)
             (optimize_schedule df cfg).1 ->
      StronglySorted
        (fun a b => Schedule_Start_Time a <= Schedule_Start_Time b)
        (optimize_schedule df cfg).1)
  /\ (Forall (fun s => slot_transit_start s < slot_transit_end s)
             (optimize_schedule df cfg).1 ->
      no_overlap_by_start Schedule_Start_Time Schedule_End_Time
        (optimize_schedule df cfg).1
      /\ no_overlap_by_start slot_transit_start slot_transit_end
           (optimize_schedule df cfg).1).
Proof.
  pose proof (schedule_StronglySorted df cfg) as Hs.
  pose proof (schedule_transit_StronglySorted df cfg) as Ht.
  pose proof (schedule_columns_contain_transit df cfg) as Hc.
  split; [by apply StronglySorted_Sorted|]. split; [done|].
  split; [done|]. split; [apply schedule_ascending_by_end|].
  split; intros Hw.
  - apply (StronglySorted_by_start Schedule_Start_Time Schedule_End_Time);
      [done|].
    rewrite Forall_forall in Hw, Hc |- *. intros s Hin.
    specialize (Hw s Hin). specialize (Hc s Hin). lia.
  - split; apply no_overlap_by_start_positive; try done.
    rewrite Forall_forall in Hw, Hc |- *. intros s Hin.
    specialize (Hw s Hin). specialize (Hc s Hin). lia.
Qed.

Lemma schedule_slots_do_not_overlap_witness :
  StronglySorted
    (fun a b => Schedule_Start_Time a <= Schedule_Start_Time b)
    (optimize_schedule (P := stable_pandas) abc_table default_config).1
  /\ no_overlap_by_start Schedule_Start_Time Schedule_End_Time
       (optimize_schedule (P := stable_pandas) abc_table default_config).1
  /\ no_overlap_by_start slot_transit_start slot_transit_end
       (optimize_schedule (P := stable_pandas) abc_table default_config).1.
Proof.
  destruct (schedule_slots_do_not_overlap (P := stable_pandas) abc_table
              default_config) as (_ & _ & _ & _ & H1 & H2).
  split; [apply H1|apply H2];
    repeat first
      [ apply List.Forall_nil
      | apply List.Forall_cons;
        [vm_compute; (reflexivity || discriminate)|] ].
Defined.

(** C2 (as stated) fails: the filter admits a row of negative duration,
    whose transit starts after it ends.  With x from 3:00 to 8:00 and y
    starting at 5:00 and ending at 1:00, the scan visits y first and
    accepts both; ordered by start time, x comes before y and ends after y
    starts. *)
Lemma slots_ordered_by_start_overlap :
  ~ no_overlap_by_start Schedule_Start_Time Schedule_End_Time
      (optimize_schedule (P := stable_pandas) backwards_table
         default_config).1
  /\ ~ no_overlap_by_start slot_transit_start slot_transit_end
        (optimize_schedule (P := stable_pandas) backwards_table
           default_config).1.
Proof.
  remember (optimize_schedule (P := stable_pandas) backwards_table
              default_config).1 as sched eqn:E.
  vm_compute in E. subst sched.
  split; intros H;
    match type of H with
    | no_overlap_by_start _ _ [?y; ?x] =>
      specialize (H [x; y] (perm_swap y x []))
    end;
    match type of H with
    | ?A -> _ =>
      assert A as Hin by (repeat constructor; vm_compute; discriminate)
    end;
    apply H in Hin; apply Sorted_inv in Hin as [_ Hin];
    apply HdRel_inv in Hin; vm_compute in Hin; by apply Hin.
Qed.

(** C3: the events of the two tables that [optimize_schedule] returns,
    taken together, are the events of the input table, each as many times
    as the input has it: no row is dropped, none is in both tables or
    twice in one. *)
Theorem every_event_in_exactly_one_table `{P : Pandas} df cfg :
  map slot_event (optimize_schedule df cfg).1
  ++ map cut_event (optimize_schedule df cfg).2
  ≡ₚ map row_event (rows df).
Proof. apply tables_partition. Qed.

(** C4: the cause [process_row] records for a row is the cause of the first
    check the row fails, in the order duration NaN, period limit, window
    start, window end, magnitude, mid air mass, transit depth, absent or NaN
    ingress/egress air mass, ingress/egress air-mass limit; the row is
    admitted when it fails none.  So a row that fails a check is reported
    with the cause of the earliest check it fails, which is that check or
    one before it. *)
Theorem admission_reports_first_failing_check `{P : Pandas} df cfg row :
  map snd (checks df cfg) =
    [ Duration_is_NaN; Period_limit_exceeded; Start_before_window;
      End_after_window; Magnitude_limit_exceeded; Air_mass_limit_exceeded;
      Transit_depth_limit_exceeded; absent_cause df;
      Ingress_egress_limit_exceeded ]
  /\ recorded_cause (process_row df cfg row)
     = first_failing (checks df cfg) row
  /\ forall i check k,
       checks df cfg !! i = Some (check, k) -> check row = true ->
       exists i' check' k',
         (i' <= i)%nat
         /\ checks df cfg !! i' = Some (check', k')
         /\ check' row = true
         /\ recorded_cause (process_row df cfg row) = Some k'
         /\ forall j c, (j < i')%nat -> checks df cfg !! j = Some c ->
                        c.1 row = false.
Proof.
  split; [reflexivity|]. split; [apply recorded_cause_first_failing|].
  intros i check k Hi Hfail. rewrite recorded_cause_first_failing.
  destruct (first_failing (checks df cfg) row) as [k'|] eqn:E.
  - apply first_failing_Some in E as (i' & check' & Hi' & Hfail' & Hmin).
    exists i', check', k'. repeat split; try done.
    destruct (decide (i' <= i)%nat) as [|Hlt]; [done|].
    specialize (Hmin i (check, k)). simpl in Hmin.
    rewrite Hmin in Hfail; [done|lia|done].
  - apply first_failing_None in E. rewrite Forall_forall in E.
    specialize (E (check, k)). simpl in E. rewrite E in Hfail; [done|].
    eapply list_elem_of_lookup_2; eauto.
Qed.

Lemma admission_reports_first_failing_check_witness :
  exists i' check' k',
    (i' <= 4)%nat
    /\ checks (P := stable_pandas) abc_table period_config !! i'
       = Some (check', k')
    /\ check' far_and_faint = true
    /\ recorded_cause
         (process_row (P := stable_pandas) abc_table period_config
            far_and_faint) = Some k'
    /\ forall j c, (j < i')%nat ->
         checks (P := stable_pandas) abc_table period_config !! j = Some c ->
         c.1 far_and_faint = false.
Proof.
  exact (proj2 (proj2 (admission_reports_first_failing_check
                         (P := stable_pandas) abc_table period_config
                         far_and_faint))
           4%nat (magnitude_outside period_config) Magnitude_limit_exceeded
           eq_refl eq_refl).
Defined.

(** C10: an entry that [process_row] sends to the cut list with one of the
    two time-window causes has no transit start and no transit end, although
    the duration of the row is a number and its transit times were
    computed. *)
Theorem window_rejection_has_null_times `{P : Pandas} df cfg row e :
  process_row df cfg row = inl e ->
  Cause e = Start_before_window \/ Cause e = End_after_window ->
  cut_Transit_Start_Time e = None
  /\ cut_Transit_End_Time e = None
  /\ is_Some (transit_times cfg row).
Proof.
  unfold process_row, transit_times.
  destruct (transitduration row); [intros [= <-] [?|?]; done|].
  destruct (out_of_range (period_limit cfg) _);
    [intros [= <-] [?|?]; done|].
  destruct (calculate_transit_times _ _ _) as [ts te].
  destruct (before_window _ _); [intros [= <-] _; simpl; eauto|].
  destruct (after_window _ _); [intros [= <-] _; simpl; eauto|].
  repeat
    (match goal with
     | |- context [if ?b then inl _ else _] => destruct b
     end; [intros [= <-] [?|?]; simpl in *; by repeat case_match|]).
  intros [=].
Qed.

Lemma window_rejection_has_null_times_witness :
  cut_Transit_Start_Time
    (mkCut "E" (Fin 1) (clock 20 0) None None (Fin 0) (Fin 0) (Fin 3)
           (Fin 0.01) (Fin 1.2) (Fin 10) Start_before_window) = None
  /\ cut_Transit_End_Time
       (mkCut "E" (Fin 1) (clock 20 0) None None (Fin 0) (Fin 0) (Fin 3)
              (Fin 0.01) (Fin 1.2) (Fin 10) Start_before_window) = None
  /\ is_Some (transit_times (P := stable_pandas) window_config early).
Proof.
  apply (window_rejection_has_null_times (P := stable_pandas) window_table
           window_config early).
  - vm_compute. reflexivity.
  - left. reflexivity.
Defined.

(** ** Setup buffering *)

Section Setup.
Context `{P : Pandas}.

(** [calculate_transit_times] shifts the start and the end by 30 minutes
    when the buffer is on. *)
Lemma calculate_transit_times_setup midpoint duration :
  calculate_transit_times midpoint duration true =
  ((calculate_transit_times midpoint duration false).1 - minutes_30,
   (calculate_transit_times midpoint duration false).2 + minutes_30).
Proof. unfold calculate_transit_times. simpl. f_equal; lia. Qed.

(** An admitted row carries the transit times [calculate_transit_times]
    gives for it. *)
Lemma process_row_admitted_times df cfg row c :
  process_row df cfg row = inr c ->
  exists d,
    transitduration row = Fin d
    /\ (Transit_Start_Time c, Transit_End_Time c)
       = calculate_transit_times (midpointcalendar row) d (setup_time cfg).
Proof.
  unfold process_row.
  destruct (transitduration row) as [|d]; [done|].
  destruct (out_of_range (period_limit cfg) _); [done|].
  destruct (calculate_transit_times _ _ _) as [ts te] eqn:E.
  destruct (before_window _ _); [done|].
  destruct (after_window _ _); [done|].
  repeat
    (match goal with
     | |- context [if ?b then inl _ else _] => destruct b
     end; [done|]).
  intros [= <-]. exists d. by rewrite E.
Qed.

(** The interval the scan tests for overlap, for an admitted row, when the
    buffer is on: the transit times of the row, which contain the buffer,
    moved by 30 more minutes. *)
Lemma scan_interval_with_setup df cfg row c :
  setup_time cfg = true ->
  process_row df cfg row = inr c ->
  exists d,
    transitduration row = Fin d
    /\ schedule_start_time cfg c
       = midpointcalendar row - 2 * minutes_30 - Timedelta_hours (d / 2)
    /\ schedule_end_time cfg c
       = midpointcalendar row + 2 * minutes_30 + Timedelta_hours (d / 2).
Proof.
  intros Hs Hc. apply process_row_admitted_times in Hc as (d & Hd & Ht).
  exists d. split; [done|].
  unfold schedule_start_time, schedule_end_time.
  rewrite Hs in *. unfold calculate_transit_times in Ht.
  injection Ht as -> ->. lia.
Qed.

(** Without a time window, the buffer changes the outcome of no check. *)
Lemma recorded_cause_setup_independent df cfg row b :
  time_window cfg = (None, None) ->
  recorded_cause (process_row df (with_setup b cfg) row)
  = recorded_cause (process_row df cfg row).
Proof.
  intros Hw. rewrite !recorded_cause_first_failing.
  unfold checks, first_failing, starts_before_window, ends_after_window,
    transit_times.
  simpl. rewrite Hw. simpl.
  destruct (transitduration row); [reflexivity|].
  by do 2 destruct (calculate_transit_times _ _ _).
Qed.

(** With a time window as well, the buffer changes the outcome of no check
    other than the two window checks. *)
Lemma other_checks_setup_independent df cfg b :
  forall i check check' k k',
    i <> 2%nat -> i <> 3%nat ->
    checks df cfg !! i = Some (check, k) ->
    checks df (with_setup b cfg) !! i = Some (check', k') ->
    k = k' /\ forall row, check row = check' row.
Proof.
  intros i check check' k k' H2 H3.
  do 9 (destruct i as [|i]; [try done; intros [= <- <-] [= <- <-]; done|]).
  done.
Qed.

End Setup.

(** C5, at the input where the code departs from it: with setup buffering
    on, A (10:00-11:00) and B (12:00-13:00) have the derived intervals
    9:30-11:30 and 11:30-13:30 of [calculate_transit_times], which do not
    overlap; the scan of [optimize_schedule] subtracts and adds the 30
    minutes once more, tests 9:00-12:00 against 11:00-14:00, and sends B to
    the cut list as overlapping. *)
Theorem setup_buffer_applied_twice :
  calculate_transit_times (P := stable_pandas) (clock 10 30) 1 true
    = (clock 9 30, clock 11 30)
  /\ calculate_transit_times (P := stable_pandas) (clock 12 30) 1 true
     = (clock 11 30, clock 13 30)
  /\ map (fun s => (Name (slot_row s), Schedule_Start_Time s,
                    Schedule_End_Time s))
         (optimize_schedule (P := stable_pandas) gap_table setup_config).1
     = [("A", clock 9 0, clock 12 0)]
  /\ map (fun e => (cut_Name e, Cause e))
         (optimize_schedule (P := stable_pandas) gap_table setup_config).2
     = [("B", Overlapping)]
  /\ map (fun s => Name (slot_row s))
         (optimize_schedule (P := stable_pandas) gap_table default_config).1
     = ["A"; "B"].
Proof. repeat split; vm_compute; reflexivity. Qed.

(** ** [calculate_transit_times] on its own *)

Section TransitTimes.
Context `{P : Pandas}.

Lemma int64_Some z z' : int64 z = Some z' -> z' = z.
Proof. unfold int64. destruct (int64_ns z); congruence. Qed.

Lemma int64_in_range z : int64_ns z = true -> int64 z = Some z.
Proof. unfold int64. by intros ->. Qed.

Lemma int64_ns_between a b z :
  int64_ns a = true -> int64_ns b = true -> a <= z <= b ->
  int64_ns z = true.
Proof.
  unfold int64_ns. rewrite !andb_true_iff, !Z.ltb_lt. lia.
Qed.

(** Within the range, the computation is that of
    [calculate_transit_times]. *)
Lemma calculate_transit_times_int64_Some midpoint duration setup ts te :
  calculate_transit_times_int64 midpoint duration setup = Some (ts, te) ->
  (ts, te) = calculate_transit_times midpoint duration setup.
Proof.
  unfold calculate_transit_times_int64, calculate_transit_times.
  intros H.
  destruct (int64 midpoint) as [m|] eqn:Em; [|done].
  apply int64_Some in Em as ->. simpl in H.
  destruct (int64 (Timedelta_hours _)) as [half|] eqn:Eh; [|done].
  apply int64_Some in Eh as ->. simpl in H.
  destruct setup.
  - destruct (int64 (midpoint - minutes_30)) as [s0|] eqn:E0; [|done].
    apply int64_Some in E0 as ->. simpl in H.
    destruct (int64 (_ - _ - _)) as [s1|] eqn:E1; [|done].
    apply int64_Some in E1 as ->. simpl in H.
    destruct (int64 (midpoint + minutes_30)) as [e0|] eqn:E2; [|done].
    apply int64_Some in E2 as ->. simpl in H.
    destruct (int64 (_ + _ + _)) as [e1|] eqn:E3; [|done].
    apply int64_Some in E3 as ->. simpl in H. congruence.
  - destruct (int64 (midpoint - _)) as [s1|] eqn:E1; [|done].
    apply int64_Some in E1 as ->. simpl in H.
    destruct (int64 (midpoint + _)) as [e1|] eqn:E3; [|done].
    apply int64_Some in E3 as ->. simpl in H. congruence.
Qed.

(** A duration of zero: the computation stays within the range when the
    midpoint, moved by the buffer either way, is within it. *)
Lemma calculate_transit_times_int64_0 (midpoint : Z) (setup : bool) :
  int64_ns (midpoint - (if setup then minutes_30 else 0)) = true ->
  int64_ns (midpoint + (if setup then minutes_30 else 0)) = true ->
  calculate_transit_times_int64 midpoint 0 setup
  = Some (midpoint - (if setup then minutes_30 else 0),
          midpoint + (if setup then minutes_30 else 0)).
Proof.
  intros Hlo Hhi. unfold calculate_transit_times_int64.
  assert (int64_ns midpoint = true) as Hm.
  { eapply int64_ns_between; [exact Hlo|exact Hhi|].
    unfold minutes_30. destruct setup; lia. }
  rewrite (int64_in_range _ Hm). simpl.
  rewrite (Timedelta_hours_0 (0 / 2)) by reflexivity.
  rewrite (int64_in_range 0) by reflexivity. simpl.
  destruct setup.
  - rewrite (int64_in_range _ Hlo). simpl.
    rewrite Z.sub_0_r, (int64_in_range _ Hlo). simpl.
    rewrite (int64_in_range _ Hhi). simpl.
    by rewrite Z.add_0_r, (int64_in_range _ Hhi).
  - rewrite Z.sub_0_r in Hlo |- *. rewrite Z.add_0_r in Hhi |- *.
    by rewrite (int64_in_range _ Hm).
Qed.

End TransitTimes.

(** C9 (as amended): the transit start that [calculate_transit_times]
    derives is before the transit end exactly when the offset of half the
    duration, plus the 30 minutes of the buffer when it is on, is positive
    (first conjunct).  Within the range of pandas the derivation is this
    computation (second conjunct), and for a duration of zero it does not
    fail, with either value of the setup flag, when the midpoint, moved by
    the 30 minutes of the buffer either way when it is on, is within that
    range: it gives the interval from the midpoint to the midpoint without
    the buffer (start equal to end), and from 30 minutes before the
    midpoint to 30 minutes after it with the buffer (third conjunct). *)
Theorem calculate_transit_times_interval `{P : Pandas} midpoint duration
    setup :
  ((calculate_transit_times midpoint duration setup).1
   < (calculate_transit_times midpoint duration setup).2
   <-> 0 < Timedelta_hours (duration / 2)
           + (if setup then minutes_30 else 0))
  /\ (forall ts te,
        calculate_transit_times_int64 midpoint duration setup
        = Some (ts, te) ->
        (ts, te) = calculate_transit_times midpoint duration setup)
  /\ (int64_ns (midpoint - (if setup then minutes_30 else 0)) = true ->
      int64_ns (midpoint + (if setup then minutes_30 else 0)) = true ->
      calculate_transit_times_int64 midpoint 0 setup
      = Some (midpoint - (if setup then minutes_30 else 0),
              midpoint + (if setup then minutes_30 else 0))).
Proof.
  split; [unfold calculate_transit_times; destruct setup; simpl; lia|].
  split; [apply calculate_transit_times_int64_Some|].
  apply calculate_transit_times_int64_0.
Qed.

Lemma calculate_transit_times_interval_witness :
  calculate_transit_times_int64 (P := stable_pandas) (clock 5 0) 0 false
  = Some (clock 5 0, clock 5 0)
  /\ calculate_transit_times_int64 (P := stable_pandas) (clock 5 0) 0 true
     = Some (clock 4 30, clock 5 30).
Proof.
  split.
  - exact (proj2 (proj2 (calculate_transit_times_interval
                           (P := stable_pandas) (clock 5 0) 0 false))
             eq_refl eq_refl).
  - exact (proj2 (proj2 (calculate_transit_times_interval
                           (P := stable_pandas) (clock 5 0) 0 true))
             eq_refl eq_refl).
Defined.

(** C9 (as stated) fails: for a duration of zero and no setup buffer the
    transit start is not before the transit end. *)
Lemma zero_duration_start_not_before_end :
  ~ (calculate_transit_times (P := stable_pandas) (clock 5 0) 0 false).1
    < (calculate_transit_times (P := stable_pandas) (clock 5 0) 0 false).2.
Proof. vm_compute. discriminate. Qed.

(** ** Inverted ranges *)

Section Ranges.
Context `{P : Pandas}.

Lemma out_of_range_inverted lo hi q :
  (hi < lo)%Q -> out_of_range (Some (lo, hi)) (Fin q) = true.
Proof.
  intros Hlt. unfold out_of_range, num_lt, num_gt, Qlt_bool.
  destruct (Qle_bool lo q) eqn:E1; [|reflexivity].
  destruct (Qle_bool q hi) eqn:E2; [|reflexivity].
  apply Qle_bool_iff in E1, E2.
  exfalso. apply (Qlt_irrefl lo).
  eapply Qle_lt_trans; [|exact Hlt]. eapply Qle_trans; eauto.
Qed.

(** An admitted row is inside the three configured ranges, as far as the
    comparisons of the source can tell. *)
Lemma process_row_admitted_in_range df cfg row c :
  process_row df cfg row = inr c ->
  out_of_range (period_limit cfg) (Period c) = false
  /\ out_of_range (magnitude_limit cfg) (Magnitude_K c) = false
  /\ out_of_range (transit_depth_limit cfg) (Transit_Depth c) = false.
Proof.
  unfold process_row.
  destruct (transitduration row) as [|d]; [done|].
  destruct (out_of_range (period_limit cfg) _) eqn:Ep; [done|].
  destruct (calculate_transit_times _ _ _) as [ts te].
  destruct (before_window _ _); [done|].
  destruct (after_window _ _); [done|].
  destruct (out_of_range (magnitude_limit cfg) _) eqn:Em; [done|].
  destruct (air_mass_lim cfg && _); [done|].
  destruct (out_of_range (transit_depth_limit cfg) _) eqn:Ed; [done|].
  destruct (negb (nanignore_airmass cfg) && _); [done|].
  destruct (_ || _); [done|].
  by intros [= <-].
Qed.

Lemma inverted_range_slot df cfg s lo hi :
  (hi < lo)%Q ->
  s ∈ (optimize_schedule df cfg).1 ->
  (period_limit cfg = Some (lo, hi) -> Period (slot_row s) = NaN)
  /\ (magnitude_limit cfg = Some (lo, hi) -> Magnitude_K (slot_row s) = NaN)
  /\ (transit_depth_limit cfg = Some (lo, hi) ->
      Transit_Depth (slot_row s) = NaN).
Proof.
  intros Hlt Hs.
  apply scheduled_from_admitted in Hs.
  apply admitted_from_row in Hs as (row & _ & Hc).
  apply (process_row_admitted_in_range df) in Hc as (Hp & Hm & Hd).
  repeat split; intros E; rewrite E in *.
  - destruct (Period (slot_row s)); [done|].
    by rewrite out_of_range_inverted in Hp.
  - destruct (Magnitude_K (slot_row s)); [done|].
    by rewrite out_of_range_inverted in Hm.
  - destruct (Transit_Depth (slot_row s)); [done|].
    by rewrite out_of_range_inverted in Hd.
Qed.

End Ranges.

(** C7 (as amended): [optimize_schedule] does not look at its configuration
    before the loop over the rows and has no error outcome.  With a range
    whose maximum is below its minimum it processes every row (each row is
    in one of the two returned tables) and schedules no event whose value
    for that range is a number: a slot of the schedule has NaN there. *)
Theorem inverted_range_is_not_refused `{P : Pandas} df cfg lo hi :
  (hi < lo)%Q ->
  map slot_event (optimize_schedule df cfg).1
  ++ map cut_event (optimize_schedule df cfg).2
  ≡ₚ map row_event (rows df)
  /\ Forall (fun s =>
       (period_limit cfg = Some (lo, hi) -> Period (slot_row s) = NaN)
       /\ (magnitude_limit cfg = Some (lo, hi) ->
           Magnitude_K (slot_row s) = NaN)
       /\ (transit_depth_limit cfg = Some (lo, hi) ->
           Transit_Depth (slot_row s) = NaN))
     (optimize_schedule df cfg).1.
Proof.
  intros Hlt. split; [apply tables_partition|].
  apply Forall_forall. intros s Hs. by apply (inverted_range_slot df).
Qed.

Lemma inverted_range_is_not_refused_witness :
  (5 < 10)%Q
  /\ map slot_event
       (optimize_schedule (P := stable_pandas) inverted_table
          inverted_config).1
     ++ map cut_event
          (optimize_schedule (P := stable_pandas) inverted_table
             inverted_config).2
     ≡ₚ map row_event (rows inverted_table)
  /\ Forall (fun s =>
       (period_limit inverted_config = Some (10, 5)%Q ->
        Period (slot_row s) = NaN)
       /\ (magnitude_limit inverted_config = Some (10, 5)%Q ->
           Magnitude_K (slot_row s) = NaN)
       /\ (transit_depth_limit inverted_config = Some (10, 5)%Q ->
           Transit_Depth (slot_row s) = NaN))
     (optimize_schedule (P := stable_pandas) inverted_table
        inverted_config).1.
Proof.
  assert (5 < 10)%Q as Hlt by reflexivity.
  split; [exact Hlt|].
  exact (inverted_range_is_not_refused (P := stable_pandas) inverted_table
           inverted_config 10%Q 5%Q Hlt).
Defined.

(** C7 (as stated) fails: with the magnitude range 10 to 5 nothing is
    refused before the rows are processed.  [optimize_schedule] goes
    through both rows and returns its two tables: the row of magnitude 7 is
    in the cut list with the magnitude cause, and the row whose magnitude
    is NaN is scheduled. *)
Lemma inverted_range_rows_are_processed :
  map (fun s => Name (slot_row s))
      (optimize_schedule (P := stable_pandas) inverted_table
         inverted_config).1 = ["N"]
  /\ map (fun e => (cut_Name e, cause_text (Cause e)))
         (optimize_schedule (P := stable_pandas) inverted_table
            inverted_config).2 = [("M", "Magnitude limit exceeded")].
Proof. split; vm_compute; reflexivity. Qed.

(** ** The count of [count_max_schedules] *)

Section CountMaxSchedules.
Implicit Types (h : gmap loc (list value)) (l : loc) (v : value).

Lemma bind_run {A B} (m : M A) (f : A -> M B) h x h' :
  m h = Some (x, h') -> (m ≫= f) h = f x h'.
Proof. unfold mbind, M_bind. by intros ->. Qed.

Lemma load_run h0 h l items :
  h0 ⊆ h -> h0 !! l = Some items -> load l h = Some (items, h).
Proof.
  intros Hsub Hl. unfold load.
  by rewrite (lookup_weaken _ _ _ _ Hl Hsub).
Qed.

Lemma item_run h0 h l items i x :
  h0 ⊆ h -> h0 !! l = Some items -> items !! i = Some x ->
  item (VRef l) i h = Some (x, h).
Proof.
  intros Hsub Hl Hi. unfold item. simpl.
  rewrite (bind_run _ _ _ _ _ (load_run _ _ _ _ Hsub Hl)).
  by rewrite Hi.
Qed.

Lemma append_run h l items x :
  h !! l = Some items -> append l x h = Some (tt, <[l := items ++ [x]]> h).
Proof. intros Hl. unfold append. by rewrite Hl. Qed.

Lemma accept_run last s h :
  match last_value last with
  | VNone => mret true
  | _ => ge (VTime s) (last_value last)
  end h = Some (fits last s, h).
Proof. by destruct last. Qed.

Lemma event_times_inv h v s e :
  event_times h v = Some (s, e) ->
  exists l items,
    v = VRef l /\ h !! l = Some items
    /\ items !! 3%nat = Some (VTime s) /\ items !! 4%nat = Some (VTime e).
Proof.
  unfold event_times. intros H.
  destruct v as [| | | |l]; try done.
  destruct (h !! l) as [items|] eqn:El; [|done].
  destruct (items !! 3%nat) as [[]|] eqn:E3; try done.
  destruct (items !! 4%nat) as [[]|] eqn:E4; try done.
  injection H as -> ->. by exists l, items.
Qed.

(** One round of the inner loop. *)
Lemma scan_event_run h0 h temp acc last l items s e :
  h0 ⊆ h -> h0 !! l = Some items ->
  items !! 3%nat = Some (VTime s) -> items !! 4%nat = Some (VTime e) ->
  h !! temp = Some acc ->
  scan_event temp (last_value last) (VRef l) h
  = Some (if fits last s
          then (VTime e, <[temp := acc ++ [VRef l]]> h)
          else (last_value last, h)).
Proof.
  intros Hsub Hl H3 H4 Htemp. unfold scan_event.
  rewrite (bind_run _ _ _ _ _ (item_run _ _ _ _ _ _ Hsub Hl H3)).
  rewrite (bind_run _ _ _ _ _ (item_run _ _ _ _ _ _ Hsub Hl H4)).
  rewrite (bind_run _ _ _ _ _ (accept_run last s h)).
  destruct (fits last s); [|reflexivity].
  by rewrite (bind_run _ _ _ _ _ (append_run _ _ _ _ Htemp)).
Qed.

(** The inner loop appends to [temp_schedule] one reference for each event
    of the reduction and touches no other list. *)
Lemma scan_events_run h0 temp events evs :
  temp ∉ dom h0 ->
  Forall2 (fun v p => event_times h0 v = Some p) events evs ->
  forall h acc last,
    h0 ⊆ h -> h !! temp = Some acc ->
    exists h' acc' v',
      for_each (scan_event temp) (last_value last) events h = Some (v', h')
      /\ h0 ⊆ h'
      /\ h' !! temp = Some (acc ++ acc')
      /\ length acc' = length (reduction last evs).
Proof.
  intros Hfresh. induction 1 as [|v [s e] events evs Hv Hrest IH];
    intros h acc last Hsub Htemp.
  - exists h, [], (last_value last). simpl. by rewrite app_nil_r.
  - apply event_times_inv in Hv as (l & items & -> & Hl & H3 & H4).
    cbn [for_each reduction].
    pose proof (scan_event_run _ _ _ _ last _ _ _ _ Hsub Hl H3 H4 Htemp)
      as Hstep.
    destruct (fits last s) eqn:Efit;
      rewrite (bind_run _ _ _ _ _ Hstep).
    + destruct (IH (<[temp := acc ++ [VRef l]]> h) (acc ++ [VRef l])
                  (Some e)) as (h' & acc' & v' & Hrun & Hsub' & Ht & Hlen).
      { apply insert_subseteq_r; [|done]. by apply not_elem_of_dom. }
      { apply lookup_insert_eq. }
      exists h', (VRef l :: acc'), v'.
      split; [exact Hrun|]. split; [done|].
      split; [by rewrite Ht, <- app_assoc|]. simpl. by rewrite Hlen.
    + destruct (IH h acc last Hsub Htemp)
        as (h' & acc' & v' & Hrun & Hsub' & Ht & Hlen).
      by exists h', acc', v'.
Qed.

End CountMaxSchedules.

Section CountMaxSchedulesCorrect.
Implicit Types (h : gmap loc (list value)) (l : loc) (v : value).

Lemma schedule_times_inv h v evs :
  schedule_times h v = Some evs ->
  exists l events,
    v = VRef l /\ h !! l = Some events
    /\ Forall2 (fun v p => event_times h v = Some p) events evs.
Proof.
  unfold schedule_times. intros H.
  destruct v as [| | | |l]; try done.
  destruct (h !! l) as [events|] eqn:El; [|done].
  apply mapM_Some in H. by exists l, events.
Qed.

(** One round of the outer loop: the candidate counts when its reduction
    has [n] events, and every list that was there is unchanged. *)
Lemma count_candidate_run h0 h n count v evs :
  h0 ⊆ h -> schedule_times h0 v = Some evs ->
  exists h',
    count_candidate n count v h
    = Some ((if decide (length (reduction None evs) = n)
             then S count else count), h')
    /\ h0 ⊆ h'.
Proof.
  intros Hsub Hv.
  apply schedule_times_inv in Hv as (l & events & -> & Hl & Hevs).
  set (temp := fresh (dom h)).
  assert (temp ∉ dom h) as Hfresh by apply is_fresh.
  assert (temp ∉ dom h0) as Hfresh0.
  { intros Hin. apply Hfresh. by eapply subseteq_dom. }
  assert (h0 ⊆ <[temp := []]> h) as Hsub1.
  { apply insert_subseteq_r; [|done]. by apply not_elem_of_dom. }
  destruct (scan_events_run h0 temp events evs Hfresh0 Hevs
              (<[temp := []]> h) [] None Hsub1 (lookup_insert_eq _ _ _))
    as (h' & acc' & v' & Hrun & Hsub' & Ht & Hlen).
  exists h'. split; [|done].
  unfold count_candidate.
  rewrite (bind_run new_list _ h temp (<[temp := []]> h) eq_refl).
  rewrite (bind_run _ _ _ _ _ (load_run _ _ _ _ Hsub1 Hl)).
  rewrite (bind_run _ _ _ _ _ Hrun).
  assert (load temp h' = Some (acc', h')) as Hload.
  { unfold load. by rewrite Ht. }
  rewrite (bind_run _ _ _ _ _ Hload).
  unfold mret, M_ret. by rewrite Hlen.
Qed.

Lemma count_matching_cons evs ss n :
  count_matching (evs :: ss) n
  = ((if decide (length (reduction None evs) = n) then 1 else 0)
     + count_matching ss n)%nat.
Proof.
  unfold count_matching. rewrite filter_cons. by case_decide.
Qed.

Lemma count_candidates_run h0 n cands ss :
  Forall2 (fun v evs => schedule_times h0 v = Some evs) cands ss ->
  forall h count,
    h0 ⊆ h ->
    exists h',
      for_each (count_candidate n) count cands h
      = Some ((count + count_matching ss n)%nat, h')
      /\ h0 ⊆ h'.
Proof.
  induction 1 as [|v evs cands ss Hv Hrest IH]; intros h count Hsub.
  - exists h. split; [|done]. simpl. unfold mret, M_ret.
    do 2 f_equal. unfold count_matching. simpl. lia.
  - destruct (count_candidate_run h0 h n count v evs Hsub Hv)
      as (h1 & Hstep & Hsub1).
    cbn [for_each]. rewrite (bind_run _ _ _ _ _ Hstep).
    destruct (IH h1 (if decide (length (reduction None evs) = n)
                     then S count else count) Hsub1)
      as (h' & Hrun & Hsub').
    exists h'. split; [|done]. rewrite Hrun, count_matching_cons.
    do 2 f_equal. case_decide; lia.
Qed.

Lemma count_max_schedules_run h all_schedules df ss :
  schedules_times h all_schedules = Some ss ->
  exists h',
    count_max_schedules all_schedules df h
    = Some (count_matching ss (length df), h')
    /\ h ⊆ h'.
Proof.
  unfold schedules_times. intros H.
  destruct all_schedules as [| | | |l]; try done.
  destruct (h !! l) as [cands|] eqn:El; [|done].
  apply mapM_Some in H.
  destruct (count_candidates_run h (length df) cands ss H h 0%nat)
    as (h' & Hrun & Hsub); [done|].
  exists h'. split; [|done].
  unfold count_max_schedules.
  assert (items_of (VRef l) h = Some (cands, h)) as Hload.
  { simpl. unfold load. by rewrite El. }
  rewrite (bind_run _ _ _ _ _ Hload). exact Hrun.
Qed.

End CountMaxSchedulesCorrect.

(** C8: when [all_schedules] is a list of candidate schedules whose events
    carry a start at index 3 and an end at index 4, [count_max_schedules]
    returns the number of candidates whose reduction (one forward pass in
    the given order, an event being accepted when none is accepted yet or
    it starts at or after the end of the last accepted one) has as many
    events as [optimized_schedule_df] has rows; and every list that exists
    before the call has the same items after it. *)
Theorem count_max_schedules_counts_matching
    (h : gmap loc (list value)) (all_schedules : value)
    (optimized_schedule_df : list slot) (schedules : list (list (Z * Z))) :
  schedules_times h all_schedules = Some schedules ->
  exists h',
    count_max_schedules all_schedules optimized_schedule_df h
    = Some (count_matching schedules (length optimized_schedule_df), h')
    /\ h ⊆ h'.
Proof. apply count_max_schedules_run. Qed.

Lemma count_max_schedules_counts_matching_witness :
  exists h',
    count_max_schedules (VRef 0%nat)
      (optimize_schedule (P := stable_pandas) zero_width_table default_config).1
      shared_heap
    = Some (count_matching
              [ [(clock 10 0, clock 11 0); (clock 10 30, clock 11 30)];
                [(clock 10 30, clock 11 30); (clock 10 0, clock 11 0)] ]
              (length (optimize_schedule (P := stable_pandas) zero_width_table
                         default_config).1), h')
    /\ shared_heap ⊆ h'.
Proof.
  apply (count_max_schedules_counts_matching shared_heap (VRef 0%nat)).
  vm_compute. reflexivity.
Defined.

(** On that heap, with a reference schedule of one slot, both candidates
    match, and the five lists are as they were. *)
Lemma count_max_schedules_shared_events :
  (count_max_schedules (VRef 0%nat)
     (optimize_schedule (P := stable_pandas) zero_width_table
        default_config).1 shared_heap)
    ≫= (fun r => Some (r.1, map (fun l => r.2 !! l) (seq 0 5)))
  = Some (2%nat, map (fun l => shared_heap !! l) (seq 0 5)).
Proof. vm_compute. reflexivity. Qed.

(** * Further properties of the code

    ** The scan of [optimize_schedule] *)

Section ScanFacts.
Context `{P : Pandas}.

Lemma accepted_nil_iff cfg l : accepted cfg None l = [] <-> l = [].
Proof. destruct l; simpl; split; done. Qed.

Lemma schedule_nil_iff df cfg :
  (optimize_schedule df cfg).1 = [] <-> (admission df cfg).1 = [].
Proof.
  rewrite optimize_schedule_schedule. split.
  - intros H. apply fmap_nil_inv, accepted_nil_iff in H.
    apply Permutation_nil. by rewrite <- H, sort_values_Permutation.
  - intros H.
    assert (sort_values (admission df cfg).1 = []) as ->; [|done].
    apply Permutation_nil. by rewrite sort_values_Permutation, H.
Qed.

Lemma accepted_length df cfg :
  (length (accepted cfg None (sort_values (admission df cfg).1))
   + length (overlapped cfg None (sort_values (admission df cfg).1)))%nat
  = length (admission df cfg).1.
Proof.
  rewrite <- length_app.
  by rewrite accepted_overlapped_Permutation, sort_values_Permutation.
Qed.

(** A row the scan rejects starts before the bound the scan started from
    or before the end of a row the scan accepted. *)
Lemma overlapped_blocked cfg l :
  forall t x,
    x ∈ overlapped cfg t l ->
    (exists t0, t = Some t0 /\ schedule_start_time cfg x < t0)
    \/ exists y, y ∈ accepted cfg t l
                 /\ schedule_start_time cfg x < schedule_end_time cfg y.
Proof.
  induction l as [|a l IH]; intros t x Hx; simpl in *.
  - by apply elem_of_nil in Hx.
  - destruct (fits t (schedule_start_time cfg a)) eqn:E.
    + destruct (IH _ _ Hx) as [(t0 & [= <-] & Hlt)|(y & Hy & Hlt)].
      * right. exists a. split; [by left|done].
      * right. exists y. split; [by right|done].
    + apply elem_of_cons in Hx as [->|Hx].
      * left. destruct t as [t0|]; [|done]. exists t0. split; [done|].
        simpl in E. lia.
      * destruct (IH _ _ Hx) as [?|(y & Hy & Hlt)]; [by left|].
        right. by exists y.
Qed.

(** Where the entries of the cut list come from. *)
Lemma cut_list_origin df cfg e :
  e ∈ (optimize_schedule df cfg).2 ->
  (exists row, row ∈ rows df /\ process_row df cfg row = inl e)
  \/ exists c, c ∈ overlapped cfg None (sort_values (admission df cfg).1)
               /\ e = with_cause c Overlapping.
Proof.
  rewrite optimize_schedule_cut_list, elem_of_app.
  intros [He|He].
  - left. rewrite admission_rejected, list_elem_of_omap in He.
    destruct He as (row & Hrow & Hr). exists row. split; [done|].
    by destruct (process_row df cfg row); simplify_eq/=.
  - right. apply list_elem_of_fmap in He as (c & -> & Hc). by exists c.
Qed.

Lemma overlapped_admitted df cfg c :
  c ∈ overlapped cfg None (sort_values (admission df cfg).1) ->
  c ∈ (admission df cfg).1.
Proof.
  intros Hc. rewrite <- (sort_values_Permutation (admission df cfg).1).
  rewrite <- (accepted_overlapped_Permutation cfg None).
  apply elem_of_app. by right.
Qed.

Lemma process_row_never_overlapping df cfg row e :
  process_row df cfg row = inl e -> Cause e <> Overlapping.
Proof.
  intros He Hk.
  pose proof (recorded_cause_first_failing df cfg row) as Hf.
  rewrite He in Hf. simpl in Hf. rewrite Hk in Hf.
  unfold absent_cause in Hf. by repeat case_match.
Qed.

End ScanFacts.

(** ** The call of [optimize_schedule] as a whole *)

Section Result.
Context `{P : Pandas}.

Lemma optimize_schedule_result_None df cfg :
  optimize_schedule_result df cfg = None <-> (admission df cfg).1 = [].
Proof.
  rewrite <- schedule_nil_iff. unfold optimize_schedule_result, plot_frame.
  by destruct (optimize_schedule df cfg).1.
Qed.

Lemma optimize_schedule_result_Some df cfg tables :
  optimize_schedule_result df cfg = Some tables ->
  tables = optimize_schedule df cfg /\ (admission df cfg).1 <> [].
Proof.
  intros H. split.
  - unfold optimize_schedule_result in H.
    destruct (plot_frame _ _); congruence.
  - intros Hnil. apply optimize_schedule_result_None in Hnil. congruence.
Qed.

End Result.

(** X1: [optimize_schedule] never returns an empty schedule.  When the
    filter admits no row, the call ends in [KeyError] where the plot reads
    the columns of the schedule; when the call returns, the two tables are
    those the two loops built, at least one row was admitted, and the
    schedule has a slot. *)
Theorem optimize_schedule_never_returns_empty_schedule `{P : Pandas} df cfg :
  ((admission df cfg).1 = [] -> optimize_schedule_result df cfg = None)
  /\ forall schedule cuts,
       optimize_schedule_result df cfg = Some (schedule, cuts) ->
       (schedule, cuts) = optimize_schedule df cfg
       /\ (admission df cfg).1 <> []
       /\ schedule <> [].
Proof.
  split; [apply optimize_schedule_result_None|].
  intros schedule cuts H.
  apply optimize_schedule_result_Some in H as [Ht Hadm].
  split; [done|]. split; [done|].
  intros ->. apply Hadm, schedule_nil_iff. by rewrite <- Ht.
Qed.

Lemma optimize_schedule_never_returns_empty_schedule_witness :
  optimize_schedule_result (P := stable_pandas) window_table window_config
  = None
  /\ (optimize_schedule (P := stable_pandas) abc_table default_config).1
     <> [].
Proof.
  split.
  - apply (optimize_schedule_never_returns_empty_schedule
             (P := stable_pandas) window_table window_config).
    reflexivity.
  - destruct (optimize_schedule_never_returns_empty_schedule
                (P := stable_pandas) abc_table default_config) as [_ H].
    destruct (H (optimize_schedule (P := stable_pandas) abc_table
                   default_config).1
                (optimize_schedule (P := stable_pandas) abc_table
                   default_config).2) as (_ & _ & Hs); [|exact Hs].
    vm_compute. reflexivity.
Defined.

(** X2: the first slot of the schedule is an admitted event that ends
    first: no admitted event has an earlier transit end. *)
Theorem first_slot_ends_first `{P : Pandas} df cfg :
  match (optimize_schedule df cfg).1 with
  | [] => True
  | s :: _ =>
    slot_row s ∈ (admission df cfg).1
    /\ Forall (fun c => Transit_End_Time (slot_row s) <= Transit_End_Time c)
              (admission df cfg).1
  end.
Proof.
  rewrite optimize_schedule_schedule.
  pose proof (sort_values_Permutation (admission df cfg).1) as Hp.
  pose proof (sort_values_Sorted (admission df cfg).1) as Hs.
  destruct (sort_values (admission df cfg).1) as [|a l]; [done|].
  simpl. split.
  - rewrite <- Hp. by left.
  - rewrite <- Hp. constructor; [lia|].
    apply Sorted.Sorted_StronglySorted in Hs.
    + by inversion Hs.
    + intros x y z. unfold by_end. lia.
Qed.

(** X3: the cut list is the rejections of the filter, in the order of the
    input rows, followed by the rows the scan rejects; only the latter
    have the cause "Overlapping with another target", and there are as
    many of them as admitted events that are not in the schedule. *)
Theorem cut_list_order `{P : Pandas} df cfg :
  exists overlaps,
    (optimize_schedule df cfg).2
    = omap (fun r => rejected_of (process_row df cfg r)) (rows df)
      ++ overlaps
    /\ Forall (fun e => Cause e <> Overlapping)
              (omap (fun r => rejected_of (process_row df cfg r)) (rows df))
    /\ Forall (fun e => Cause e = Overlapping) overlaps
    /\ (length (optimize_schedule df cfg).1 + length overlaps)%nat
       = length (admission df cfg).1.
Proof.
  eexists. rewrite optimize_schedule_cut_list, admission_rejected.
  split; [reflexivity|]. split; [|split].
  - apply Forall_forall. intros e He.
    apply list_elem_of_omap in He as (row & _ & Hr).
    apply (process_row_never_overlapping df cfg row).
    by destruct (process_row df cfg row); simplify_eq/=.
  - apply Forall_fmap, Forall_true. done.
  - rewrite optimize_schedule_schedule, !length_map.
    apply accepted_length.
Qed.

(** X4: every entry of the cut list with the cause "Overlapping with
    another target" carries its transit start, and the start the scan
    tests for it (the transit start less the pad of the scan) is before
    the schedule end of some slot of the schedule. *)
Theorem overlap_rejection_is_blocked `{P : Pandas} df cfg :
  Forall (fun e =>
            exists ts s,
              cut_Transit_Start_Time e = Some ts
              /\ s ∈ (optimize_schedule df cfg).1
              /\ ts - scan_pad cfg < Schedule_End_Time s)
         (filter (fun e => Cause e = Overlapping)
                 (optimize_schedule df cfg).2).
Proof.
  apply Forall_forall. intros e He.
  apply list_elem_of_filter in He as [Hk He].
  apply cut_list_origin in He as [(row & _ & Hr)|(c & Hc & ->)].
  { by apply process_row_never_overlapping in Hr. }
  apply overlapped_blocked in Hc as [(t0 & [=] & _)|(y & Hy & Hlt)].
  exists (Transit_Start_Time c), (add_schedule_columns cfg y).
  split; [done|]. split.
  - rewrite optimize_schedule_schedule. by apply list_elem_of_fmap_2.
  - unfold schedule_start_time, schedule_end_time, scan_pad in *. simpl.
    destruct (setup_time cfg); lia.
Qed.

(** ** The admission filter of [optimize_schedule] *)

Section FilterFacts.
Context `{P : Pandas}.

(** What an admitted row is. *)
Lemma process_row_inr df cfg row c :
  process_row df cfg row = inr c ->
  exists d,
    transitduration row = Fin d
    /\ c = mkCandidate (planetname row) (Fin d) (midpointcalendar row)
             (calculate_transit_times (midpointcalendar row) d
                (setup_time cfg)).1
             (calculate_transit_times (midpointcalendar row) d
                (setup_time cfg)).2
             (ra row) (dec row) (period row) (transitdepthcalc row)
             (midpointairmass row) (magnitude_k row)
    /\ first_failing (checks df cfg) row = None.
Proof.
  intros Hc. pose proof (recorded_cause_first_failing df cfg row) as Hf.
  rewrite Hc in Hf. simpl in Hf. revert Hc. unfold process_row.
  destruct (transitduration row) as [|d]; [done|].
  destruct (out_of_range (period_limit cfg) _); [done|].
  destruct (calculate_transit_times _ _ _) as [ts te] eqn:E.
  destruct (before_window _ _); [done|].
  destruct (after_window _ _); [done|].
  repeat
    (match goal with
     | |- context [if ?b then inl _ else _] => destruct b
     end; [done|]).
  intros [= <-]. exists d. by rewrite E.
Qed.

(** What a rejected row is: its cause is the first failing check, and its
    entry has transit times exactly when the cause is recorded after they
    are stored. *)
Lemma process_row_inl df cfg row e :
  process_row df cfg row = inl e ->
  first_failing (checks df cfg) row = Some (Cause e)
  /\ cut_event e = row_event row
  /\ if recorded_without_times (Cause e)
     then cut_Transit_Start_Time e = None /\ cut_Transit_End_Time e = None
     else exists d,
       transitduration row = Fin d
       /\ cut_Transit_Start_Time e
          = Some (calculate_transit_times (midpointcalendar row) d
                    (setup_time cfg)).1
       /\ cut_Transit_End_Time e
          = Some (calculate_transit_times (midpointcalendar row) d
                    (setup_time cfg)).2.
Proof.
  intros He. pose proof (recorded_cause_first_failing df cfg row) as Hf.
  pose proof (process_row_event df cfg row) as Hev.
  rewrite He in Hf, Hev. simpl in Hf, Hev.
  split; [done|]. split; [done|]. clear Hf Hev. revert He.
  unfold process_row.
  destruct (transitduration row) as [|d]; [by intros [= <-]|].
  destruct (out_of_range (period_limit cfg) _); [by intros [= <-]|].
  destruct (calculate_transit_times _ _ _) as [ts te] eqn:E.
  destruct (before_window _ _); [by intros [= <-]|].
  destruct (after_window _ _); [by intros [= <-]|].
  repeat
    (match goal with
     | |- context [if ?b then inl _ else _] => destruct b
     end;
     [intros [= <-]; simpl;
      try destruct (ingress_column_exists df && egress_column_exists df);
      simpl; exists d; by rewrite E|]).
  done.
Qed.

Lemma out_of_range_NaN limit : out_of_range limit NaN = false.
Proof. by destruct limit as [[lo hi]|]. Qed.

(** The checks an admitted row has passed, one by one. *)
Lemma admitted_passes_checks df cfg row :
  first_failing (checks df cfg) row = None ->
  period_outside cfg row = false
  /\ starts_before_window cfg row = false
  /\ ends_after_window cfg row = false
  /\ magnitude_outside cfg row = false
  /\ air_mass_above_2 cfg row = false
  /\ transit_depth_outside cfg row = false
  /\ ingress_egress_absent df cfg row = false
  /\ ingress_egress_above df cfg row = false.
Proof.
  intros H. apply first_failing_None in H.
  unfold checks in H. repeat (apply Forall_cons in H as [? H]).
  simpl in *. by repeat split.
Qed.

Lemma scheduled_row_origin df cfg s :
  s ∈ (optimize_schedule df cfg).1 ->
  s = add_schedule_columns cfg (slot_row s)
  /\ exists row, row ∈ rows df /\ process_row df cfg row = inr (slot_row s).
Proof.
  intros Hs. split.
  - rewrite optimize_schedule_schedule in Hs.
    by apply list_elem_of_fmap in Hs as (c & -> & _).
  - by apply admitted_from_row, scheduled_from_admitted.
Qed.

End FilterFacts.

(** X5: the frame [plot_schedule_with_plotly] builds from the schedule of
    [optimize_schedule] does not exist (reading the column ['Name'] raises)
    exactly when the filter admits no row; so a call of [optimize_schedule]
    in which every row is rejected ends in that error. *)
Theorem plot_frame_fails_iff_none_admitted `{P : Pandas} df cfg :
  plot_frame (optimize_schedule df cfg).1 (setup_time cfg) = None
  <-> (admission df cfg).1 = [].
Proof.
  rewrite <- schedule_nil_iff. unfold plot_frame.
  by destruct (optimize_schedule df cfg).1.
Qed.

(** X6: when the frame exists, it has one bar per slot of the schedule,
    from the schedule start to the schedule end of the slot whether the
    setup buffer is on or off, and every bar finishes no later than the
    next one starts. *)
Theorem plot_frame_bars `{P : Pandas} df cfg bars :
  plot_frame (optimize_schedule df cfg).1 (setup_time cfg) = Some bars ->
  map (fun b => (Task b, Start b, Finish b)) bars
  = map (fun s => (Name (slot_row s), Schedule_Start_Time s,
                   Schedule_End_Time s))
        (optimize_schedule df cfg).1
  /\ Sorted (fun a b => Finish a <= Start b) bars.
Proof.
  intros Hb.
  pose proof (schedule_StronglySorted df cfg) as Hs.
  assert (Forall (fun s => s = add_schedule_columns cfg (slot_row s))
                 (optimize_schedule df cfg).1) as Hcols.
  { apply Forall_forall. intros s Hs'.
    by apply scheduled_row_origin in Hs' as [? _]. }
  assert (bars
          = map (fun s =>
                   if setup_time cfg then
                     mkBar (Name (slot_row s)) (Schedule_Start_Time s)
                           (Schedule_End_Time s) (Name (slot_row s))
                   else
                     mkBar (Name (slot_row s))
                           (Transit_Start_Time (slot_row s))
                           (Transit_End_Time (slot_row s))
                           (Name (slot_row s)))
                (optimize_schedule df cfg).1) as ->.
  { unfold plot_frame in Hb.
    destruct (optimize_schedule df cfg).1; [done|]. by injection Hb. }
  clear Hb. revert Hs Hcols.
  generalize (optimize_schedule df cfg).1. intros l Hs Hcols.
  split.
  - rewrite map_map. apply map_ext_Forall.
    eapply Forall_impl; [exact Hcols|]. intros s Hs'. rewrite Hs'.
    simpl. by destruct (setup_time cfg).
  - apply StronglySorted_Sorted.
    induction Hs as [|a l Hl IH Ha]; simpl; [constructor|].
    inversion Hcols as [|? ? Hca Hcl]; subst.
    constructor; [by apply IH|].
    apply Forall_fmap.
    rewrite Forall_forall in Ha, Hcl |- *. intros b Hb.
    specialize (Ha b Hb). specialize (Hcl b Hb).
    rewrite Hca, Hcl in *. unfold precedes in Ha. simpl in *.
    by destruct (setup_time cfg).
Qed.

Lemma plot_frame_bars_witness :
  exists bars,
    plot_frame (optimize_schedule (P := stable_pandas) gap_table
                  setup_config).1 (setup_time setup_config) = Some bars
    /\ map (fun b => (Task b, Start b, Finish b)) bars
       = map (fun s => (Name (slot_row s), Schedule_Start_Time s,
                        Schedule_End_Time s))
             (optimize_schedule (P := stable_pandas) gap_table
                setup_config).1
    /\ Sorted (fun a b => Finish a <= Start b) bars.
Proof.
  eexists. split; [vm_compute; reflexivity|].
  apply (plot_frame_bars (P := stable_pandas) gap_table setup_config).
  vm_compute. reflexivity.
Defined.

Section FilterTables.
Context `{P : Pandas}.

Lemma overlapped_entry df cfg c :
  c ∈ overlapped cfg None (sort_values (admission df cfg).1) ->
  exists row, row ∈ rows df /\ process_row df cfg row = inr c.
Proof. intros Hc. by apply admitted_from_row, overlapped_admitted. Qed.

Lemma absent_column_fails df cfg row :
  ingress_column_exists df && egress_column_exists df = false ->
  nanignore_airmass cfg = false ->
  ingress_egress_absent df cfg row = true.
Proof.
  intros Hcols Hnan.
  unfold ingress_egress_absent, ingress_air_mass, egress_air_mass.
  rewrite Hnan. simpl.
  destruct (ingress_column_exists df); [|done].
  destruct (egress_column_exists df); [done|]. simpl. apply orb_true_r.
Qed.

Lemma absent_column_none_admitted df cfg :
  ingress_column_exists df && egress_column_exists df = false ->
  nanignore_airmass cfg = false ->
  (admission df cfg).1 = [].
Proof.
  intros Hcols Hnan. apply elem_of_nil_inv. intros c Hc.
  apply admitted_from_row in Hc as (row & _ & Hr).
  apply process_row_inr in Hr as (d & _ & _ & Hf).
  apply admitted_passes_checks in Hf.
  destruct Hf as (_ & _ & _ & _ & _ & _ & Habs & _).
  by rewrite absent_column_fails in Habs.
Qed.

End FilterTables.

(** X7: an entry of the cut list has no transit times when its cause is
    one of the four recorded before the times are stored (NaN duration,
    period limit, the two window causes); every other entry, the overlap
    rejections included, has a duration that is a number and the transit
    times [calculate_transit_times] gives for its midpoint and duration. *)
Theorem cut_entry_transit_times `{P : Pandas} df cfg :
  Forall (fun e =>
            if recorded_without_times (Cause e)
            then cut_Transit_Start_Time e = None
                 /\ cut_Transit_End_Time e = None
            else exists d,
              cut_Duration e = Fin d
              /\ cut_Transit_Start_Time e
                 = Some (calculate_transit_times (cut_Midpoint e) d
                           (setup_time cfg)).1
              /\ cut_Transit_End_Time e
                 = Some (calculate_transit_times (cut_Midpoint e) d
                           (setup_time cfg)).2)
         (optimize_schedule df cfg).2.
Proof.
  apply Forall_forall. intros e He.
  apply cut_list_origin in He as [(row & _ & Hr)|(c & Hc & ->)].
  - apply process_row_inl in Hr as (_ & Hev & Ht).
    destruct (recorded_without_times (Cause e)); [done|].
    destruct Ht as (d & Hd & Hs & Hen). exists d.
    injection Hev as _ Hdur Hmid _ _ _ _ _ _.
    by rewrite Hdur, Hmid.
  - apply overlapped_entry in Hc as (row & _ & Hr).
    apply process_row_inr in Hr as (d & _ & -> & _). simpl. by exists d.
Qed.

(** X8: the transit interval of every slot of the schedule is inside the
    time window: it starts no earlier than the window start and ends no
    later than the window end, for each bound the window has. *)
Theorem scheduled_within_window `{P : Pandas} df cfg :
  Forall (fun s =>
            within_window (time_window cfg)
              (Transit_Start_Time (slot_row s))
              (Transit_End_Time (slot_row s)))
         (optimize_schedule df cfg).1.
Proof.
  apply Forall_forall. intros s Hs.
  apply scheduled_row_origin in Hs as (_ & row & _ & Hr).
  apply process_row_inr in Hr as (d & Hd & -> & Hf).
  apply admitted_passes_checks in Hf as (_ & Hb & Ha & _).
  unfold starts_before_window, ends_after_window, transit_times in *.
  rewrite Hd in *. destruct (calculate_transit_times _ _ _) as [ts te].
  unfold within_window, before_window, after_window in *. simpl.
  destruct (time_window cfg) as [[ws|] [we|]]; simpl in *; split; try done;
    lia.
Qed.

(** X9: when the ingress or the egress air-mass column is absent and
    [nanignore_airmass] is off, the filter admits no row and the call of
    [optimize_schedule] ends in [KeyError] instead of returning.  Before
    that, the first loop has put every row in the cut list, none with the
    cause "NaN in ingress/egress air mass", the ingress/egress limit cause
    or the overlap cause. *)
Theorem absent_column_rejects_every_row `{P : Pandas} df cfg :
  ingress_column_exists df && egress_column_exists df = false ->
  nanignore_airmass cfg = false ->
  optimize_schedule_result df cfg = None
  /\ (admission df cfg).1 = []
  /\ length (admission df cfg).2 = length (rows df)
  /\ Forall (fun e => Cause e <> NaN_in_ingress_egress
                      /\ Cause e <> Ingress_egress_limit_exceeded
                      /\ Cause e <> Overlapping)
            (admission df cfg).2.
Proof.
  intros Hcols Hnan.
  pose proof (absent_column_none_admitted df cfg Hcols Hnan) as Hadm.
  split; [by apply optimize_schedule_result_None|]. split; [done|]. split.
  - pose proof (admission_partition df cfg) as Hp. rewrite Hadm in Hp.
    apply Permutation_length in Hp. simpl in Hp.
    by rewrite !length_map in Hp.
  - apply Forall_forall. intros e He.
    rewrite admission_rejected, list_elem_of_omap in He.
    destruct He as (row & _ & Hr).
    assert (process_row df cfg row = inl e) as Hrow.
    { by destruct (process_row df cfg row); simplify_eq/=. }
    apply process_row_inl in Hrow as (Hf & _).
    unfold checks, first_failing in Hf.
    rewrite (absent_column_fails df cfg row Hcols Hnan) in Hf.
    unfold absent_cause in Hf. rewrite Hcols in Hf.
    repeat case_match; by injection Hf as <-.
Qed.

Lemma absent_column_rejects_every_row_witness :
  optimize_schedule_result (P := stable_pandas) no_ingress_table
    default_config = None
  /\ (admission (P := stable_pandas) no_ingress_table default_config).1 = []
  /\ length (admission (P := stable_pandas) no_ingress_table
               default_config).2 = length (rows no_ingress_table)
  /\ Forall (fun e => Cause e <> NaN_in_ingress_egress
                      /\ Cause e <> Ingress_egress_limit_exceeded
                      /\ Cause e <> Overlapping)
            (admission (P := stable_pandas) no_ingress_table
               default_config).2.
Proof.
  apply (absent_column_rejects_every_row (P := stable_pandas)
           no_ingress_table default_config); reflexivity.
Defined.

(** X10: with [nanignore_airmass] on, no row is cut for an absent or NaN
    ingress/egress air mass, and a row is cut for the ingress/egress limit
    only when one of the two columns exists. *)
Theorem nanignore_airmass_skips_absent `{P : Pandas} df cfg :
  nanignore_airmass cfg = true ->
  Forall (fun e => Cause e <> NaN_in_ingress_egress
                   /\ Cause e <> Ingress_egress_missing)
         (optimize_schedule df cfg).2
  /\ (ingress_column_exists df || egress_column_exists df = true
      \/ Forall (fun e => Cause e <> Ingress_egress_limit_exceeded)
                (optimize_schedule df cfg).2).
Proof.
  intros Hnan.
  assert (forall row, ingress_egress_absent df cfg row = false) as Habs.
  { intros row. unfold ingress_egress_absent. by rewrite Hnan. }
  split.
  - apply Forall_forall. intros e He.
    apply cut_list_origin in He as [(row & _ & Hr)|(c & Hc & ->)]; [|done].
    apply process_row_inl in Hr as (Hf & _).
    unfold checks, first_failing in Hf. rewrite Habs in Hf.
    repeat case_match; try done; by injection Hf as <-.
  - destruct (ingress_column_exists df || egress_column_exists df) eqn:Hc;
      [by left|right].
    apply orb_false_elim in Hc as [Hi He'].
    apply Forall_forall. intros e He.
    apply cut_list_origin in He as [(row & _ & Hr)|(c & Hc & ->)]; [|done].
    apply process_row_inl in Hr as (Hf & _).
    unfold checks, first_failing in Hf. rewrite Habs in Hf.
    assert (ingress_egress_above df cfg row = false) as Hab.
    { unfold ingress_egress_above, ingress_air_mass, egress_air_mass.
      by rewrite Hi, He'. }
    rewrite Hab in Hf.
    repeat case_match; try done; by injection Hf as <-.
Qed.

Lemma nanignore_airmass_skips_absent_witness :
  Forall (fun e => Cause e <> NaN_in_ingress_egress
                   /\ Cause e <> Ingress_egress_missing)
         (optimize_schedule (P := stable_pandas) no_air_mass_columns_table
            nanignore_config).2
  /\ (ingress_column_exists no_air_mass_columns_table
      || egress_column_exists no_air_mass_columns_table = true
      \/ Forall (fun e => Cause e <> Ingress_egress_limit_exceeded)
                (optimize_schedule (P := stable_pandas)
                   no_air_mass_columns_table nanignore_config).2).
Proof.
  apply (nanignore_airmass_skips_absent (P := stable_pandas)
           no_air_mass_columns_table nanignore_config).
  reflexivity.
Defined.

(** X11: an entry cut for one of the four range checks has a number in the
    field that check reads: a NaN period, magnitude, mid air mass or transit
    depth is never the reason a row is cut (every comparison with NaN is
    false). *)
Theorem range_cause_has_number `{P : Pandas} df cfg :
  Forall (fun e =>
            match Cause e with
            | Period_limit_exceeded => cut_Period e <> NaN
            | Magnitude_limit_exceeded => cut_Magnitude_K e <> NaN
            | Air_mass_limit_exceeded => cut_Air_Mass e <> NaN
            | Transit_depth_limit_exceeded => cut_Transit_Depth e <> NaN
            | _ => True
            end)
         (optimize_schedule df cfg).2.
Proof.
  apply Forall_forall. intros e He.
  apply cut_list_origin in He as [(row & _ & Hr)|(c & Hc & ->)]; [|done].
  apply process_row_inl in Hr as (Hf & Hev & _).
  injection Hev as _ _ _ _ _ Hp Hd Ha Hm.
  apply first_failing_Some in Hf as (i & check & Hi & Hfail & _).
  destruct (Cause e) eqn:Hk; try done;
    destruct i as [|[|[|[|[|[|[|[|[|i]]]]]]]]]; simplify_eq/=; try done.
  all: try (unfold absent_cause in *; by repeat case_match).
  - unfold period_outside in Hfail. rewrite Hp. intros HN.
    by rewrite HN, out_of_range_NaN in Hfail.
  - unfold magnitude_outside in Hfail. rewrite Hm. intros HN.
    by rewrite HN, out_of_range_NaN in Hfail.
  - unfold air_mass_above_2 in Hfail. rewrite Ha. intros HN.
    rewrite HN in Hfail. simpl in Hfail. by rewrite andb_false_r in Hfail.
  - unfold transit_depth_outside in Hfail. rewrite Hd. intros HN.
    by rewrite HN, out_of_range_NaN in Hfail.
Qed.

(** X12: the entries of the cut list with the cause "Duration is NaN" are
    exactly those whose duration is NaN, whatever the configuration. *)
Theorem nan_duration_cause_iff `{P : Pandas} df cfg :
  Forall (fun e => Cause e = Duration_is_NaN <-> cut_Duration e = NaN)
         (optimize_schedule df cfg).2.
Proof.
  apply Forall_forall. intros e He.
  apply cut_list_origin in He as [(row & _ & Hr)|(c & Hc & ->)].
  - apply process_row_inl in Hr as (Hf & Hev & _).
    injection Hev as _ Hdur _ _ _ _ _ _ _. rewrite Hdur.
    unfold checks, first_failing, duration_is_nan in Hf.
    destruct (transitduration row); simpl in Hf.
    + by injection Hf as <-.
    + split; [|done]. intros Hk. rewrite Hk in Hf.
      unfold absent_cause in Hf. by repeat case_match.
  - apply overlapped_entry in Hc as (row & _ & Hr).
    by apply process_row_inr in Hr as (d & _ & -> & _).
Qed.

(** X13: every slot of the schedule has a duration that is a number, the
    transit times [calculate_transit_times] gives for its midpoint and
    duration, and schedule times that are the transit times moved outwards
    by the pad of the scan. *)
Theorem slot_times_consistent `{P : Pandas} df cfg :
  Forall (fun s =>
            exists d,
              Duration (slot_row s) = Fin d
              /\ transit_interval (slot_row s)
                 = calculate_transit_times (Midpoint (slot_row s)) d
                     (setup_time cfg)
              /\ Schedule_Start_Time s
                 = Transit_Start_Time (slot_row s) - scan_pad cfg
              /\ Schedule_End_Time s
                 = Transit_End_Time (slot_row s) + scan_pad cfg)
         (optimize_schedule df cfg).1.
Proof.
  apply Forall_forall. intros s Hs.
  apply scheduled_row_origin in Hs as (Hcols & row & _ & Hr).
  apply process_row_inr in Hr as (d & _ & Hc & _).
  exists d. rewrite Hcols, Hc. unfold transit_interval, scan_pad. simpl.
  destruct (calculate_transit_times _ _ _) as [ts te]. simpl.
  repeat split; destruct (setup_time cfg); lia.
Qed.

(** ** [count_max_schedules] on any heap *)

Section CountFrame.
Implicit Types (h : gmap loc (list value)) (l : loc) (v : value).

Lemma bind_Some {A B} (m : M A) (f : A -> M B) h y h' :
  (m ≫= f) h = Some (y, h') ->
  exists x h1, m h = Some (x, h1) /\ f x h1 = Some (y, h').
Proof.
  unfold mbind, M_bind. destruct (m h) as [[x h1]|]; [|done].
  intros Hf. by exists x, h1.
Qed.

Lemma bind_None {A B} (m : M A) (f : A -> M B) h :
  m h = None -> (m ≫= f) h = None.
Proof. unfold mbind, M_bind. by intros ->. Qed.

Lemma item_Some v i h x h' : item v i h = Some (x, h') -> h' = h.
Proof.
  unfold item. intros H. apply bind_Some in H as (its & h1 & Hl & Hi).
  assert (h1 = h) as ->.
  { destruct v; try done. simpl in Hl. unfold load in Hl.
    destruct (h !! l); [|done]. congruence. }
  destruct (its !! i); [|done]. unfold mret, M_ret in Hi. congruence.
Qed.

Lemma ge_Some (a b : value) h x h' : ge a b h = Some (x, h') -> h' = h.
Proof.
  unfold ge. destruct a, b; try done; by intros [= <- <-].
Qed.

(** A round of the inner loop writes to [temp_schedule] only. *)
Lemma scan_event_frame h0 temp last ev h v' h' :
  temp ∉ dom h0 -> h0 ⊆ h ->
  scan_event temp last ev h = Some (v', h') -> h0 ⊆ h'.
Proof.
  intros Hfresh Hsub H. unfold scan_event in H.
  apply bind_Some in H as (s & h1 & H3 & H).
  apply item_Some in H3 as ->.
  apply bind_Some in H as (e & h2 & H4 & H).
  apply item_Some in H4 as ->.
  apply bind_Some in H as (accept & h3 & Ha & H).
  assert (h3 = h) as ->.
  { destruct last; try by eapply ge_Some. by injection Ha as <- <-. }
  destruct accept.
  - apply bind_Some in H as ([] & h4 & Happ & H).
    injection H as <- <-. unfold append in Happ.
    destruct (h !! temp) as [items|]; [|done]. injection Happ as <-.
    apply insert_subseteq_r; [|done]. by apply not_elem_of_dom.
  - by injection H as <- <-.
Qed.

Lemma scan_events_frame h0 temp events :
  temp ∉ dom h0 ->
  forall last h v' h',
    h0 ⊆ h ->
    for_each (scan_event temp) last events h = Some (v', h') -> h0 ⊆ h'.
Proof.
  intros Hfresh. induction events as [|ev events IH];
    intros last h v' h' Hsub H.
  - by injection H as <- <-.
  - cbn [for_each] in H. apply bind_Some in H as (v1 & h1 & Hstep & H).
    eapply IH; [|exact H]. by eapply scan_event_frame.
Qed.

Lemma new_list_frame h0 h :
  h0 ⊆ h ->
  (fresh (dom h) ∉ dom h0) /\ (h0 ⊆ <[fresh (dom h) := []]> h).
Proof.
  intros Hsub.
  assert (fresh (dom h) ∉ dom h0) as Hfresh.
  { intros Hin. apply (is_fresh (dom h)). by eapply subseteq_dom. }
  split; [done|]. apply insert_subseteq_r; [|done].
  by apply not_elem_of_dom.
Qed.

(** A round of the outer loop leaves the lists that were there as they
    were and adds at most one to the count. *)
Lemma count_candidate_frame h0 n count cand h count' h' :
  h0 ⊆ h ->
  count_candidate n count cand h = Some (count', h') ->
  h0 ⊆ h' /\ (count <= count')%nat /\ (count' <= S count)%nat.
Proof.
  intros Hsub H. unfold count_candidate in H.
  apply bind_Some in H as (temp & h1 & Hnew & H).
  injection Hnew as <- <-.
  destruct (new_list_frame h0 h Hsub) as [Hfresh Hsub1].
  apply bind_Some in H as (events & h2 & Hev & H).
  assert (h2 = <[fresh (dom h) := []]> h) as ->.
  { destruct cand; try done. simpl in Hev. unfold load in Hev.
    destruct (_ !! _); [|done]. by injection Hev as <- <-. }
  apply bind_Some in H as (v & h3 & Hscan & H).
  apply (scan_events_frame h0 _ _ Hfresh) in Hscan; [|done].
  apply bind_Some in H as (temp_items & h4 & Hload & H).
  unfold load in Hload. destruct (h3 !! _); [|done].
  injection Hload as <- <-. injection H as <- <-.
  split; [done|]. case_decide; lia.
Qed.

Lemma count_candidates_frame h0 n cands :
  forall count h count' h',
    h0 ⊆ h ->
    for_each (count_candidate n) count cands h = Some (count', h') ->
    h0 ⊆ h' /\ (count' <= count + length cands)%nat.
Proof.
  induction cands as [|cand cands IH]; intros count h count' h' Hsub H.
  - injection H as <- <-. split; [done|]. simpl. lia.
  - cbn [for_each] in H. apply bind_Some in H as (c1 & h1 & Hstep & H).
    apply (count_candidate_frame h0) in Hstep as (Hsub1 & _ & Hc); [|done].
    apply IH in H as [Hsub' Hc']; [|done]. split; [done|]. simpl. lia.
Qed.

(** An event with fewer than five items stops the inner loop. *)
Lemma scan_event_short h0 temp last e items h :
  h0 ⊆ h -> h0 !! e = Some items -> (length items < 5)%nat ->
  scan_event temp last (VRef e) h = None.
Proof.
  intros Hsub He Hlen. unfold scan_event.
  destruct (items !! 3%nat) as [x|] eqn:E3.
  - rewrite (bind_run _ _ _ _ _ (item_run _ _ _ _ _ _ Hsub He E3)).
    apply bind_None. unfold item. simpl.
    rewrite (bind_run _ _ _ _ _ (load_run _ _ _ _ Hsub He)).
    rewrite (lookup_ge_None_2 items 4); [done|lia].
  - apply bind_None. unfold item. simpl.
    rewrite (bind_run _ _ _ _ _ (load_run _ _ _ _ Hsub He)).
    by rewrite E3.
Qed.

Lemma scan_events_short h0 temp e items events :
  temp ∉ dom h0 -> VRef e ∈ events ->
  h0 !! e = Some items -> (length items < 5)%nat ->
  forall last h,
    h0 ⊆ h -> for_each (scan_event temp) last events h = None.
Proof.
  intros Hfresh Hin He Hlen.
  induction events as [|ev events IH]; intros last h Hsub.
  - by apply elem_of_nil in Hin.
  - cbn [for_each].
    destruct (scan_event temp last ev h) as [[v1 h1]|] eqn:Hstep;
      [|by apply bind_None].
    rewrite (bind_run _ _ _ _ _ Hstep).
    apply elem_of_cons in Hin as [<-|Hin].
    + by rewrite (scan_event_short h0 _ _ _ _ _ Hsub He Hlen) in Hstep.
    + apply IH; [done|]. by eapply scan_event_frame.
Qed.

Lemma count_candidate_short h0 n count c events e items h :
  h0 ⊆ h -> h0 !! c = Some events -> VRef e ∈ events ->
  h0 !! e = Some items -> (length items < 5)%nat ->
  count_candidate n count (VRef c) h = None.
Proof.
  intros Hsub Hc Hin He Hlen. unfold count_candidate.
  destruct (new_list_frame h0 h Hsub) as [Hfresh Hsub1].
  rewrite (bind_run new_list _ h _ _ eq_refl).
  assert (items_of (VRef c) (<[fresh (dom h) := []]> h)
          = Some (events, <[fresh (dom h) := []]> h)) as Hload.
  { simpl. by eapply load_run. }
  rewrite (bind_run _ _ _ _ _ Hload).
  apply bind_None. by eapply scan_events_short.
Qed.

Lemma count_candidates_short h0 n c events e items cands :
  VRef c ∈ cands -> h0 !! c = Some events -> VRef e ∈ events ->
  h0 !! e = Some items -> (length items < 5)%nat ->
  forall count h,
    h0 ⊆ h -> for_each (count_candidate n) count cands h = None.
Proof.
  intros Hin Hc Hine He Hlen.
  induction cands as [|cand cands IH]; intros count h Hsub.
  - by apply elem_of_nil in Hin.
  - cbn [for_each].
    destruct (count_candidate n count cand h) as [[c1 h1]|] eqn:Hstep;
      [|by apply bind_None].
    rewrite (bind_run _ _ _ _ _ Hstep).
    apply elem_of_cons in Hin as [<-|Hin].
    + by rewrite (count_candidate_short h0 _ _ _ _ _ _ _ Hsub Hc Hine He
                    Hlen) in Hstep.
    + apply IH; [done|].
      by apply (count_candidate_frame h0) in Hstep as [? _].
Qed.

(** What the loops need in order to complete: events that can be indexed
    at 3 and 4, in candidates that can be iterated. *)
Lemma scan_event_Some temp last ev h v' h' :
  scan_event temp last ev h = Some (v', h') ->
  exists e items,
    ev = VRef e /\ h !! e = Some items /\ (5 <= length items)%nat.
Proof.
  intros H. unfold scan_event in H.
  apply bind_Some in H as (s & h1 & H3 & H).
  pose proof (item_Some _ _ _ _ _ H3) as ->.
  apply bind_Some in H as (x & h2 & H4 & _). clear H3.
  unfold item in H4. apply bind_Some in H4 as (items & h3 & Hl & Hi).
  destruct ev as [| | | |e]; try done.
  simpl in Hl. unfold load in Hl.
  destruct (h !! e) as [items'|] eqn:He; [|done].
  injection Hl as <- <-. exists e, items'. split; [done|]. split; [done|].
  destruct (items' !! 4%nat) eqn:E4; [|done].
  apply lookup_lt_Some in E4. lia.
Qed.

Lemma modelled_event_lookup h0 h e items :
  h0 ⊆ h -> modelled_event h0 (VRef e) = true -> h !! e = Some items ->
  h0 !! e = Some items.
Proof.
  intros Hsub Hm He. simpl in Hm.
  destruct (h0 !! e) as [items0|] eqn:E0; [|done].
  by rewrite (lookup_weaken _ _ _ _ E0 Hsub) in He.
Qed.

Lemma scan_events_Some h0 temp events :
  temp ∉ dom h0 ->
  Forall (fun ev => modelled_event h0 ev = true) events ->
  forall last h v' h',
    h0 ⊆ h ->
    for_each (scan_event temp) last events h = Some (v', h') ->
    Forall (indexable_event h0) events.
Proof.
  intros Hfresh. induction 1 as [|ev events Hev Hrest IH];
    intros last h v' h' Hsub H; [constructor|].
  cbn [for_each] in H. apply bind_Some in H as (v1 & h1 & Hstep & H).
  constructor.
  - apply scan_event_Some in Hstep as (e & items & -> & He & Hlen).
    exists e, items. split; [done|]. split; [|done].
    by eapply modelled_event_lookup.
  - eapply IH; [|exact H]. by eapply scan_event_frame.
Qed.

Lemma forallb_Forall {A} (f : A -> bool) (xs : list A) :
  forallb f xs = true -> Forall (fun x => f x = true) xs.
Proof.
  intros H. apply Forall_forall. intros x Hx.
  by apply (proj1 (forallb_forall f xs) H), list_elem_of_In.
Qed.

Lemma count_candidate_Some h0 n count cand h count' h' :
  h0 ⊆ h -> modelled_schedule h0 cand = true ->
  count_candidate n count cand h = Some (count', h') ->
  indexable_schedule h0 cand.
Proof.
  intros Hsub Hm H. unfold count_candidate in H.
  apply bind_Some in H as (temp & h1 & Hnew & H).
  injection Hnew as <- <-.
  destruct (new_list_frame h0 h Hsub) as [Hfresh Hsub1].
  apply bind_Some in H as (events & h2 & Hev & H).
  destruct cand as [| | | |c]; try done.
  simpl in Hev, Hm. unfold load in Hev.
  destruct (h0 !! c) as [events0|] eqn:Ec; [|done].
  rewrite (lookup_weaken _ _ _ _ Ec Hsub1) in Hev.
  injection Hev as <- <-.
  apply bind_Some in H as (v & h3 & Hscan & _).
  exists c, events0. split; [done|]. split; [done|].
  eapply (scan_events_Some h0); [exact Hfresh| |exact Hsub1|exact Hscan].
  by apply forallb_Forall.
Qed.

Lemma count_candidates_Some h0 n cands :
  Forall (fun cand => modelled_schedule h0 cand = true) cands ->
  forall count h count' h',
    h0 ⊆ h ->
    for_each (count_candidate n) count cands h = Some (count', h') ->
    Forall (indexable_schedule h0) cands.
Proof.
  induction 1 as [|cand cands Hc Hrest IH];
    intros count h count' h' Hsub H; [constructor|].
  cbn [for_each] in H. apply bind_Some in H as (c1 & h1 & Hstep & H).
  constructor.
  - by eapply count_candidate_Some.
  - eapply IH; [|exact H].
    by apply (count_candidate_frame h0) in Hstep as [? _].
Qed.

End CountFrame.

Section CountFacts.
Implicit Types (h : gmap loc (list value)) (l : loc) (v : value).

Lemma reduction_length_le last c :
  (length (reduction last c) <= length c)%nat.
Proof.
  revert last. induction c as [|[s e] c IH]; intros last; simpl; [lia|].
  destruct (fits last s); simpl.
  - specialize (IH (Some e)). lia.
  - specialize (IH last). lia.
Qed.

Lemma reduction_nil_iff c : length (reduction None c) = 0%nat <-> c = [].
Proof. destruct c as [|[s e] c]; simpl; split; done. Qed.

Lemma count_matching_long ss n :
  (count_matching ss n
   <= length (filter (fun c => (n <= length c)%nat) ss))%nat.
Proof.
  induction ss as [|c ss IH]; [done|].
  rewrite count_matching_cons, filter_cons.
  pose proof (reduction_length_le None c).
  repeat case_decide; simpl; lia.
Qed.

Lemma count_matching_0 ss :
  count_matching ss 0 = length (filter (fun c => c = []) ss).
Proof.
  induction ss as [|c ss IH]; [done|].
  rewrite count_matching_cons, filter_cons, IH.
  pose proof (reduction_nil_iff c) as Hc.
  repeat case_decide; simpl; try lia; tauto.
Qed.


End CountFacts.

(** X14: for candidate schedules of the expected shape, the count that
    [count_max_schedules] returns is at most the number of candidates that
    have at least as many events as the reference schedule has rows; a
    shorter candidate is never counted. *)
Theorem count_at_most_long_candidates
    (h : gmap loc (list value)) (all_schedules : value)
    (optimized_schedule_df : list slot) (schedules : list (list (Z * Z))) :
  schedules_times h all_schedules = Some schedules ->
  exists n h',
    count_max_schedules all_schedules optimized_schedule_df h = Some (n, h')
    /\ (n <= length (filter (fun c => (length optimized_schedule_df
                                        <= length c)%nat) schedules))%nat.
Proof.
  intros Hs.
  destruct (count_max_schedules_run h all_schedules optimized_schedule_df
              schedules Hs) as (h' & Hrun & _).
  eexists _, h'. split; [exact Hrun|]. apply count_matching_long.
Qed.

Lemma count_at_most_long_candidates_witness :
  exists n h',
    count_max_schedules (VRef 0%nat)
      (optimize_schedule (P := stable_pandas) abc_table default_config).1
      three_candidates_heap = Some (n, h')
    /\ (n <= length
              (filter (fun c =>
                         (length (optimize_schedule (P := stable_pandas)
                                    abc_table default_config).1
                          <= length c)%nat)
                 [ []; [(clock 10 0, clock 11 0)];
                   [(clock 10 0, clock 11 0); (clock 11 0, clock 12 0)] ]))%nat.
Proof.
  apply (count_at_most_long_candidates three_candidates_heap (VRef 0%nat)).
  vm_compute. reflexivity.
Defined.

(** X15: with an empty reference schedule, [count_max_schedules] returns
    the number of candidates that have no event: the first event of a
    candidate is always accepted. *)
Theorem count_for_empty_reference
    (h : gmap loc (list value)) (all_schedules : value)
    (schedules : list (list (Z * Z))) :
  schedules_times h all_schedules = Some schedules ->
  exists h',
    count_max_schedules all_schedules [] h
    = Some (length (filter (fun c => c = []) schedules), h')
    /\ h ⊆ h'.
Proof.
  intros Hs.
  destruct (count_max_schedules_run h all_schedules [] schedules Hs)
    as (h' & Hrun & Hsub).
  exists h'. split; [|done]. rewrite Hrun. simpl.
  by rewrite count_matching_0.
Qed.

Lemma count_for_empty_reference_witness :
  exists h',
    count_max_schedules (VRef 0%nat) [] three_candidates_heap
    = Some (length (filter (fun c => c = [])
                      [ []; [(clock 10 0, clock 11 0)];
                        [(clock 10 0, clock 11 0);
                         (clock 11 0, clock 12 0)] ]), h')
    /\ three_candidates_heap ⊆ h'.
Proof.
  apply (count_for_empty_reference three_candidates_heap (VRef 0%nat)).
  vm_compute. reflexivity.
Defined.

(** X16: when an event of a candidate schedule is a list of fewer than
    five items, [count_max_schedules] returns nothing: reading item 3 or
    item 4 of that event raises. *)
Theorem count_fails_on_short_event
    (h : gmap loc (list value)) (a c e : loc)
    (cands events items : list value) (optimized_schedule_df : list slot) :
  h !! a = Some cands -> VRef c ∈ cands ->
  h !! c = Some events -> VRef e ∈ events ->
  h !! e = Some items -> (length items < 5)%nat ->
  count_max_schedules (VRef a) optimized_schedule_df h = None.
Proof.
  intros Ha Hc Hev He Hit Hlen. unfold count_max_schedules.
  assert (items_of (VRef a) h = Some (cands, h)) as Hload.
  { simpl. unfold load. by rewrite Ha. }
  rewrite (bind_run _ _ _ _ _ Hload).
  by eapply (count_candidates_short h).
Qed.

Lemma count_fails_on_short_event_witness :
  count_max_schedules (VRef 0%nat)
    (optimize_schedule (P := stable_pandas) abc_table default_config).1
    short_event_heap = None.
Proof.
  apply (count_fails_on_short_event short_event_heap 0%nat 1%nat 3%nat
           [VRef 1%nat] [VRef 2%nat; VRef 3%nat]
           [VText "B"; VNum (Fin 1); VTime (clock 11 0);
            VTime (clock 10 30)]).
  - reflexivity.
  - apply list_elem_of_here.
  - reflexivity.
  - apply list_elem_of_further, list_elem_of_here.
  - reflexivity.
  - simpl. lia.
Defined.

(** X17: on arguments on which the model follows Python (no string where
    a list is expected, and [None], timestamps or floats at the items 3 and
    4 of the events), when [count_max_schedules] returns, every list that
    existed before the call has the same items after it, [all_schedules]
    is a list, the count is at most its length, and every candidate is a
    list of events that are lists of at least five items: a candidate or
    an event of another kind makes the call fail. *)
Theorem count_returns_frame
    (h h' : gmap loc (list value)) (all_schedules : value)
    (optimized_schedule_df : list slot) (n : nat) :
  modelled_schedules h all_schedules = true ->
  count_max_schedules all_schedules optimized_schedule_df h = Some (n, h') ->
  h ⊆ h'
  /\ exists l cands,
       all_schedules = VRef l /\ h !! l = Some cands
       /\ (n <= length cands)%nat
       /\ Forall (indexable_schedule h) cands.
Proof.
  intros Hm H. unfold count_max_schedules in H.
  apply bind_Some in H as (cands & h1 & Hload & H).
  destruct all_schedules as [| | | |l]; try done.
  simpl in Hload, Hm. unfold load in Hload.
  destruct (h !! l) as [cands'|] eqn:El; [|done].
  injection Hload as <- <-.
  pose proof (count_candidates_Some h _ _ (forallb_Forall _ _ Hm)
                _ _ _ _ (reflexivity h) H) as Hall.
  apply (count_candidates_frame h) in H as [Hsub Hn]; [|done].
  split; [done|]. exists l, cands'. by repeat split.
Qed.

Lemma count_returns_frame_witness :
  exists n h',
    count_max_schedules (VRef 0%nat)
      (optimize_schedule (P := stable_pandas) evening_table
         default_config).1 mixed_heap = Some (n, h')
    /\ mixed_heap ⊆ h'
    /\ exists l cands,
         VRef 0%nat = VRef l /\ mixed_heap !! l = Some cands
         /\ (n <= length cands)%nat
         /\ Forall (indexable_schedule mixed_heap) cands.
Proof.
  destruct (count_max_schedules (VRef 0%nat)
              (optimize_schedule (P := stable_pandas) evening_table
                 default_config).1 mixed_heap) as [[n h']|] eqn:E;
    [|vm_compute in E; discriminate E].
  exists n, h'. split; [reflexivity|].
  apply (count_returns_frame mixed_heap h' (VRef 0%nat)
           (optimize_schedule (P := stable_pandas) evening_table
              default_config).1 n); [|exact E].
  vm_compute. reflexivity.
Defined.

(** On that heap the candidate is counted: the scan accepts A, then B,
    whose start is not before the end of A, then C, since the end of B is
    [None]; the reference schedule has three slots. *)
Lemma count_max_schedules_mixed_events :
  (count_max_schedules (VRef 0%nat)
     (optimize_schedule (P := stable_pandas) evening_table
        default_config).1 mixed_heap) ≫= (fun r => Some r.1)
  = Some 1%nat.
Proof. vm_compute. reflexivity. Qed.



(** ** The filter and the setup buffer; the order of the input rows *)

Section FilterInvariance.
Context `{P : Pandas}.

Lemma process_row_setup_agree df cfg row b :
  time_window cfg = (None, None) ->
  match process_row df (with_setup b cfg) row, process_row df cfg row with
  | inl e', inl e => cut_event e' = cut_event e /\ Cause e' = Cause e
  | inr c', inr c => candidate_event c' = candidate_event c
  | _, _ => False
  end.
Proof.
  intros Hw.
  pose proof (recorded_cause_setup_independent df cfg row b Hw) as Hk.
  pose proof (process_row_event df (with_setup b cfg) row) as He'.
  pose proof (process_row_event df cfg row) as He.
  destruct (process_row df (with_setup b cfg) row),
           (process_row df cfg row); simpl in *; try done.
  - split; congruence.
  - congruence.
Qed.

Lemma maximum_non_overlapping_unique cfg l l' n n' :
  l ≡ₚ l' ->
  maximum_non_overlapping cfg l n -> maximum_non_overlapping cfg l' n' ->
  n = n'.
Proof.
  intros Hp [(s & Hs & Hno & <-) Hmax] [(s' & Hs' & Hno' & <-) Hmax'].
  apply Nat.le_antisymm.
  - apply Hmax'; [|done]. by rewrite <- Hp.
  - apply Hmax; [|done]. by rewrite Hp.
Qed.

End FilterInvariance.

(** X19: without a time window, setup buffering changes no decision of the
    filter: with the buffer on or off the same events are admitted, in the
    same order, and the same events are rejected with the same causes. *)
Theorem setup_changes_no_filter_decision `{P : Pandas} df cfg b :
  time_window cfg = (None, None) ->
  map candidate_event (admission df (with_setup b cfg)).1
  = map candidate_event (admission df cfg).1
  /\ map (fun e => (cut_event e, Cause e))
         (admission df (with_setup b cfg)).2
     = map (fun e => (cut_event e, Cause e)) (admission df cfg).2.
Proof.
  intros Hw. rewrite !admission_admitted, !admission_rejected.
  induction (rows df) as [|row l [IH1 IH2]]; [done|]. simpl.
  pose proof (process_row_setup_agree df cfg row b Hw) as H.
  destruct (process_row df (with_setup b cfg) row),
           (process_row df cfg row); simpl in *; try done.
  - destruct H as [H1 H2]. split; [exact IH1|].
    f_equal; [by rewrite H1, H2|exact IH2].
  - split; [|exact IH2]. f_equal; [exact H|exact IH1].
Qed.

Lemma setup_changes_no_filter_decision_witness :
  map candidate_event
    (admission (P := stable_pandas) nan_cells_table
       (with_setup true default_config)).1
  = map candidate_event
      (admission (P := stable_pandas) nan_cells_table default_config).1
  /\ map (fun e => (cut_event e, Cause e))
         (admission (P := stable_pandas) nan_cells_table
            (with_setup true default_config)).2
     = map (fun e => (cut_event e, Cause e))
         (admission (P := stable_pandas) nan_cells_table default_config).2.
Proof.
  apply (setup_changes_no_filter_decision (P := stable_pandas)
           nan_cells_table default_config true).
  reflexivity.
Defined.

(** X20: when the effective interval of every admitted event has positive
    width, the number of slots of the schedule does not depend on the
    order of the rows of the input table. *)
Theorem schedule_length_independent_of_row_order `{P : Pandas} df df' cfg :
  ingress_column_exists df' = ingress_column_exists df ->
  egress_column_exists df' = egress_column_exists df ->
  rows df' ≡ₚ rows df ->
  Forall (positive_width cfg) (admission df cfg).1 ->
  length (optimize_schedule df' cfg).1 = length (optimize_schedule df cfg).1.
Proof.
  intros Hi He Hp Hw.
  assert (forall row, process_row df' cfg row = process_row df cfg row)
    as Hrow.
  { intros row. unfold process_row, ingress_air_mass, egress_air_mass.
    by rewrite Hi, He. }
  assert ((admission df' cfg).1 ≡ₚ (admission df cfg).1) as Hadm.
  { rewrite !admission_admitted, Hp.
    erewrite list_omap_ext; [reflexivity|].
    apply Forall2_same_length_lookup. split; [done|].
    intros i x y Hx Hy. rewrite Hx in Hy. injection Hy as <-.
    by rewrite Hrow. }
  assert (Forall (positive_width cfg) (admission df' cfg).1) as Hw'.
  { by rewrite Hadm. }
  rewrite !optimize_schedule_schedule, !length_map.
  eapply maximum_non_overlapping_unique;
    [exact Hadm|by apply accepted_maximum..].
Qed.

Lemma schedule_length_independent_of_row_order_witness :
  length (optimize_schedule (P := stable_pandas) cba_table
            default_config).1
  = length (optimize_schedule (P := stable_pandas) abc_table
              default_config).1.
Proof.
  apply (schedule_length_independent_of_row_order (P := stable_pandas)
           abc_table cba_table default_config).
  - reflexivity.
  - reflexivity.
  - apply reverse_Permutation.
  - vm_compute. repeat constructor.
Defined.
